(** * Stock momentum analyzer: indicators, composite score, ranking

    A shallow embedding of [StockMomentumAnalyzer] (stockmomentum.py):
    [calculate_momentum_indicators], [calculate_momentum_score],
    [analyze_stocks] and [get_recommendations].

    Numbers.  The program computes with numpy/Python floats.  They are
    modelled by [num]: exact rationals extended with the three special
    values of IEEE arithmetic ([PInf], [NInf], [NaN]), so that what the
    program does on a zero denominator (numpy returns an infinity or a
    NaN, it does not raise) and on comparisons with NaN (always false) is
    kept.  Rounding and the sign of zero are not modelled. *)

From Stdlib Require Import String ZArith QArith Lqa Lia Bool List.
From Stdlib Require Import Permutation Sorted.
Import ListNotations.

Open Scope Q_scope.

(** ** Extended rationals *)

Inductive num : Type :=
| Fin (q : Q)
| PInf
| NInf
| NaN.

Definition is_nan (x : num) : bool :=
  match x with NaN => true | _ => false end.

Definition is_fin (x : num) : bool :=
  match x with Fin _ => true | _ => false end.

(** Same value: rationals up to [Qeq], special values up to identity. *)
Definition feq (x y : num) : Prop :=
  match x, y with
  | Fin a, Fin b => a == b
  | PInf, PInf | NInf, NInf | NaN, NaN => True
  | _, _ => False
  end.

Definition Qltb (a b : Q) : bool :=
  match a ?= b with Lt => true | _ => false end.

Definition Qeqb (a b : Q) : bool :=
  match a ?= b with Eq => true | _ => false end.

(** [x < y]; false as soon as one side is NaN. *)
Definition fltb (x y : num) : bool :=
  match x, y with
  | NaN, _ | _, NaN => false
  | Fin a, Fin b => Qltb a b
  | NInf, NInf | PInf, _ | Fin _, NInf => false
  | NInf, _ | Fin _, PInf => true
  end.

Definition fgtb (x y : num) : bool := fltb y x.

(** [x <= y]; false as soon as one side is NaN. *)
Definition fleb (x y : num) : bool :=
  match x, y with
  | NaN, _ | _, NaN => false
  | _, _ => negb (fltb y x)
  end.

Definition fneg (x : num) : num :=
  match x with
  | Fin a => Fin (- a)
  | PInf => NInf
  | NInf => PInf
  | NaN => NaN
  end.

Definition fadd (x y : num) : num :=
  match x, y with
  | NaN, _ | _, NaN => NaN
  | Fin a, Fin b => Fin (a + b)
  | PInf, NInf | NInf, PInf => NaN
  | PInf, _ | _, PInf => PInf
  | NInf, _ | _, NInf => NInf
  end.

Definition fsub (x y : num) : num := fadd x (fneg y).

(** Sign of a rational as an infinity, for products and quotients. *)
Definition inf_of_sign (positive : bool) : num :=
  if positive then PInf else NInf.

Definition fmul (x y : num) : num :=
  match x, y with
  | NaN, _ | _, NaN => NaN
  | Fin a, Fin b => Fin (a * b)
  | Fin a, PInf | PInf, Fin a =>
      if Qeqb a 0 then NaN else inf_of_sign (Qltb 0 a)
  | Fin a, NInf | NInf, Fin a =>
      if Qeqb a 0 then NaN else inf_of_sign (Qltb a 0)
  | PInf, PInf | NInf, NInf => PInf
  | PInf, NInf | NInf, PInf => NInf
  end.

(** numpy division: a finite number over zero is an infinity of its
    sign, [0/0] and [inf/inf] are NaN. *)
Definition fdiv (x y : num) : num :=
  match x, y with
  | NaN, _ | _, NaN => NaN
  | Fin a, Fin b =>
      if Qeqb b 0
      then (if Qeqb a 0 then NaN else inf_of_sign (Qltb 0 a))
      else Fin (a / b)
  | Fin _, _ => Fin 0
  | PInf, Fin b => inf_of_sign (negb (Qltb b 0))
  | NInf, Fin b => inf_of_sign (Qltb b 0)
  | _, _ => NaN
  end.

(** Python's builtin [min(a, b)] and [max(a, b)]: the first argument is
    kept unless the second is strictly smaller (larger). *)
Definition py_min (a b : num) : num := if fltb b a then b else a.
Definition py_max (a b : num) : num := if fgtb b a then b else a.

Definition fsum (l : list num) : num := fold_left fadd l (Fin 0).

Definition of_nat (n : nat) : num := Fin (inject_Z (Z.of_nat n)).

(** [Series.mean()]: NaN entries are skipped; NaN when nothing is left. *)
Definition series_mean (l : list num) : num :=
  let valid := filter (fun x => negb (is_nan x)) l in
  fdiv (fsum valid) (of_nat (length valid)).

(** ** Indexing and windows *)

(** The last [n] entries, [s.iloc[-n:]] for [n >= 1]. *)
Definition lastn {A} (n : nat) (l : list A) : list A :=
  skipn (length l - n) l.

(** [s.iloc[i]] with Python's negative indices.  Out of range the source
    raises IndexError; every use below is guarded by a length test that
    keeps the index in range, and the model returns NaN there. *)
Definition iloc (l : list num) (i : Z) : num :=
  let j := (if i <? 0 then Z.of_nat (length l) + i else i)%Z in
  if (j <? 0)%Z then NaN else nth (Z.to_nat j) l NaN.

(** [s.rolling(window=w).mean().iloc[-1]]: the mean of the last [w]
    entries, NaN while fewer than [w] entries exist or when one of them
    is NaN (pandas' min_periods is the window size). *)
Definition rolling_mean_last (w : nat) (l : list num) : num :=
  if (length l <? w)%nat then NaN
  else fdiv (fsum (lastn w l)) (of_nat w).

(** [s.diff()]: the first entry has no predecessor and is NaN. *)
Fixpoint diff_from (prev : num) (l : list num) : list num :=
  match l with
  | [] => []
  | x :: t => fsub x prev :: diff_from x t
  end.

Definition diff (l : list num) : list num :=
  match l with
  | [] => []
  | x :: t => NaN :: diff_from x t
  end.

(** [s.pct_change()]: [s[i] / s[i-1] - 1], NaN at the first entry. *)
Fixpoint pct_change_from (prev : num) (l : list num) : list num :=
  match l with
  | [] => []
  | x :: t => fsub (fdiv x prev) (Fin 1) :: pct_change_from x t
  end.

Definition pct_change (l : list num) : list num :=
  match l with
  | [] => []
  | x :: t => NaN :: pct_change_from x t
  end.

(** [s.where(cond, 0)]: entries failing [cond] (NaN included, whose
    comparisons are false) are replaced by 0. *)
Definition where_or_zero (cond : num -> bool) (l : list num) : list num :=
  map (fun d => if cond d then d else Fin 0) l.

(** ** Time series and records *)

(** One daily bar.  Of the OHLCV columns the analyzer reads only
    ['Close'] and ['Volume']. *)
Record Bar : Type := mkBar { Close : num; Volume : num }.

Definition TimeSeries : Type := list Bar.

(** The dict returned by [calculate_momentum_indicators]. *)
Record Indicators : Type := mkIndicators {
  ticker : string;
  current_price : num;
  returns_1w : num;
  returns_1m : num;
  returns_3m : num;
  rsi : num;
  sma_20 : num;
  sma_50 : num;
  volume_ratio : num;
  volatility : num;
  price_vs_sma20 : num;
  price_vs_sma50 : num
}.

(** The same dict once [analyze_stocks] has stored ['momentum_score']. *)
Record Scored : Type := mkScored {
  indicators_of : Indicators;
  momentum_score : num
}.

(** ** Indicator engine *)

Section IndicatorEngine.

(** numpy's square root, used by the rolling standard deviation; it is
    not rational, so the development is parametric in it. *)
Variable fsqrt : num -> num.

(** [s.rolling(window=w).std().iloc[-1]]: sample standard deviation
    (ddof = 1) of the last [w] entries, NaN when the window is not
    full of numbers. *)
Definition rolling_std_last (w : nat) (l : list num) : num :=
  if (length l <? w)%nat || existsb is_nan (lastn w l) then NaN
  else
    let win := lastn w l in
    let m := fdiv (fsum win) (of_nat w) in
    let sq := map (fun x => fmul (fsub x m) (fsub x m)) win in
    fsqrt (fdiv (fsum sq) (of_nat (w - 1))).

(** Percentage change of [current] against [reference]. *)
Definition pct_return (current reference : num) : num :=
  fmul (fdiv (fsub current reference) reference) (Fin 100).

(** [calculate_momentum_indicators].  [None] is Python's [None], both
    for the argument and for the result.  Of every rolling series the
    source reads the last entry only ([.iloc[-1]]), so [gain], [loss],
    [rs] and [rsi] below are the last entries of the series of these
    names; [rsi.empty] holds exactly when [data] has no row. *)
Definition calculate_momentum_indicators
    (data : option TimeSeries) (tk : string) : option Indicators :=
  match data with
  | None => None
  | Some data =>
    if (length data <? 20)%nat then None
    else
      let close := map Close data in
      let volume := map Volume data in
      (* Price change over different periods *)
      let price_1w :=
        if (5 <=? length data)%nat then iloc close (-5) else iloc close 0 in
      let price_1m :=
        if (20 <=? length data)%nat then iloc close (-20) else iloc close 0 in
      let price_3m :=
        if (60 <=? length data)%nat then iloc close (-60) else iloc close 0 in
      let current_price := iloc close (-1) in
      (* Calculate returns *)
      let returns_1w := pct_return current_price price_1w in
      let returns_1m := pct_return current_price price_1m in
      let returns_3m := pct_return current_price price_3m in
      (* RSI calculation *)
      let delta := diff close in
      let gain :=
        rolling_mean_last 14 (where_or_zero (fun d => fgtb d (Fin 0)) delta) in
      let loss :=
        rolling_mean_last 14
          (map fneg (where_or_zero (fun d => fltb d (Fin 0)) delta)) in
      let rs := fdiv gain loss in
      let rsi := fsub (Fin 100) (fdiv (Fin 100) (fadd (Fin 1) rs)) in
      let current_rsi :=
        match data with [] => Fin 50 | _ :: _ => rsi end in
      (* Moving averages *)
      let sma_20 := rolling_mean_last 20 close in
      let sma_50 :=
        if (50 <=? length data)%nat then rolling_mean_last 50 close
        else sma_20 in
      (* Volume trend *)
      let avg_volume_20 := rolling_mean_last 20 volume in
      let recent_volume := series_mean (lastn 5 volume) in
      let volume_ratio :=
        if fgtb avg_volume_20 (Fin 0) then fdiv recent_volume avg_volume_20
        else Fin 1 in
      (* Volatility (20-day rolling standard deviation) *)
      let volatility :=
        fmul (rolling_std_last 20 (pct_change close)) (Fin 100) in
      Some {|
        ticker := tk;
        current_price := current_price;
        returns_1w := returns_1w;
        returns_1m := returns_1m;
        returns_3m := returns_3m;
        rsi := current_rsi;
        sma_20 := sma_20;
        sma_50 := sma_50;
        volume_ratio := volume_ratio;
        volatility := volatility;
        price_vs_sma20 :=
          fmul (fdiv (fsub current_price sma_20) sma_20) (Fin 100);
        price_vs_sma50 :=
          if fgtb sma_50 (Fin 0)
          then fmul (fdiv (fsub current_price sma_50) sma_50) (Fin 100)
          else Fin 0
      |}
  end.

End IndicatorEngine.

(** ** Scoring engine *)

(** Short-term momentum: [returns_1w * 2], capped at 20 points. *)
Definition short_term_points (ind : Indicators) : num :=
  if fgtb (returns_1w ind) (Fin 0)
  then py_min (fmul (returns_1w ind) (Fin 2)) (Fin 20)
  else py_max (fmul (returns_1w ind) (Fin 2)) (Fin (-20)).

(** Medium-term momentum: [returns_1m * 1.5], capped at 15 points. *)
Definition medium_term_points (ind : Indicators) : num :=
  if fgtb (returns_1m ind) (Fin 0)
  then py_min (fmul (returns_1m ind) (Fin (3 # 2))) (Fin 15)
  else py_max (fmul (returns_1m ind) (Fin (3 # 2))) (Fin (-15)).

(** Long-term momentum: [returns_3m], capped at 10 points. *)
Definition long_term_points (ind : Indicators) : num :=
  if fgtb (returns_3m ind) (Fin 0)
  then py_min (returns_3m ind) (Fin 10)
  else py_max (returns_3m ind) (Fin (-10)).

(** [calculate_momentum_score]: the running [score] is threaded through
    the seven rules in the order of the source.  [None] stands for a
    falsy argument ([if not indicators: return 0]). *)
Definition calculate_momentum_score (indicators : option Indicators) : num :=
  match indicators with
  | None => Fin 0
  | Some ind =>
    let score := Fin 0 in
    (* Short-term momentum (40% weight) *)
    let score := fadd score (short_term_points ind) in
    (* Medium-term momentum (30% weight) *)
    let score := fadd score (medium_term_points ind) in
    (* Long-term momentum (20% weight) *)
    let score := fadd score (long_term_points ind) in
    (* RSI momentum (10% weight) *)
    let score :=
      if fleb (Fin 30) (rsi ind) && fleb (rsi ind) (Fin 70)
      then fadd score (Fin 5)
      else if fgtb (rsi ind) (Fin 80) then fsub score (Fin 10)
      else if fltb (rsi ind) (Fin 20) then fadd score (Fin 10)
      else score in
    (* Volume confirmation *)
    let score :=
      if fgtb (volume_ratio ind) (Fin (12 # 10)) then fadd score (Fin 5)
      else if fltb (volume_ratio ind) (Fin (8 # 10)) then fsub score (Fin 5)
      else score in
    (* Price vs moving averages *)
    let score :=
      if fgtb (price_vs_sma20 ind) (Fin 0) then fadd score (Fin 3)
      else score in
    let score :=
      if fgtb (price_vs_sma50 ind) (Fin 0) then fadd score (Fin 2)
      else score in
    score
  end.

(** ** Ticker universe *)

(** The literal list of [_get_sp500_tickers], row by row as in the
    source. *)
Definition major_stocks : list string :=
  [
    "AAPL"; "MSFT"; "GOOGL"; "AMZN"; "NVDA"; "TSLA"; "META"; "BRK-B";
    "UNH"; "JNJ"; "V"; "PG"; "JPM"; "XOM"; "HD"; "CVX"; "MA"; "PFE";
    "ABBV"; "BAC"; "KO"; "AVGO"; "PEP"; "TMO"; "COST"; "WMT"; "DHR";
    "MRK"; "ACN"; "VZ"; "ADBE"; "TXN"; "NFLX"; "CMCSA"; "NKE"; "CRM";
    "QCOM"; "AMD"; "INTC"; "T"; "CSCO"; "ABT"; "ORCL"; "IBM"; "GE";
    "AMGN"; "PM"; "UNP"; "LOW"; "SPGI"; "INTU"; "CAT"; "AXP"; "BKNG";
    "SYK"; "GILD"; "ADP"; "ISRG"; "TJX"; "CVS"; "MDT"; "PYPL"; "NOW";
    "RTX"; "HON"; "AMT"; "LMT"; "ELV"; "TGT"; "ZTS"; "SBUX"; "CI";
    "BLK"; "SO"; "DUK"; "PLD"; "ITW"; "EOG"; "AON"; "ICE"; "SPG";
    "NOC"; "AEP"; "PWR"; "FIS"; "PSA"; "ALL"; "MMC"; "APD"; "A";
    "CL"; "EMR"; "SHW"; "ECL"; "ROP"; "AFL"; "CTAS"; "NSC"; "ETN";
    "EXC"; "CME"; "MCO"; "TEL"; "PAYX"; "ROST"; "CHTR"; "CTSH"; "PRU";
    "AEE"; "KMB"; "YUM"; "EQR"; "EXR"; "VRSK"; "MRNA"; "FTNT"; "CDNS";
    "MCHP"; "IDXX"; "FAST"; "WEC"; "ETR"; "EIX"; "XEL"; "AWK"; "SRE";
    "PEG"; "WBA"; "ES"; "D"; "ED"; "NEE"; "PCAR"; "CNP"; "EXPD";
    "FANG"; "K"; "GIS"; "KIM"; "J"; "LHX"; "MKC"; "NTRS"; "PNC";
    "RF"; "SYY"; "TROW"; "TRV"; "USB"; "VFC"; "WLTW"; "ZBH"; "AOS";
    "BIIB"; "CINF"; "CTXS"; "DOV"; "FITB"; "GLW"; "HIG"; "HUM"; "IPG";
    "JNPR"; "KEY"; "LUV"; "MKTX"; "NDAQ"; "NUE"; "O"; "PGR"; "PKI";
    "PPG"; "RMD"; "SNA"; "STT"; "SWK"; "TEL"; "TSS"; "UDR"; "VLO";
    "WY"; "XRAY"; "ZBRA"; "AAL"; "ALK"; "ALLE"; "ANSS"; "ARE"; "BEN";
    "BF-B"; "BLL"; "BR"; "CBOE"; "CHD"; "CHRW"; "CINF"; "CLX"; "CMG";
    "CNC"; "COO"; "CPRT"; "CRL"; "CSX"; "CTAS"; "CTXS"; "D"; "DG";
    "DISH"; "DLTR"; "DRE"; "DTE"; "EA"; "EBAY"; "EFX"; "EIX"; "EL";
    "EMN"; "ENPH"; "EQIX"; "EQR"; "ES"; "ETR"; "EW"; "EXC"; "EXPD";
    "EXR"; "F"; "FANG"; "FAST"; "FBHS"; "FDX"; "FE"; "FFIV"; "FIS";
    "FISV"; "FLT"; "FMC"; "FOX"; "FOXA"; "FRC"; "FTV"; "GD"; "GPN";
    "GPS"; "GRMN"; "GWW"; "HAS"; "HBAN"; "HCA"; "HES"; "HIG"; "HOLX";
    "HPE"; "HPQ"; "HRL"; "HSIC"; "HST"; "HSY"; "HUM"; "HWM"; "IEX";
    "IFF"; "INCY"; "INFO"; "INTC"; "INTU"; "IP"; "IPG"; "IQV"; "IRM";
    "ISRG"; "IT"; "ITW"; "IVZ"; "JBHT"; "JCI"; "JKHY"; "JNJ"; "JPM";
    "JWN"; "K"; "KDP"; "KHC"; "KIM"; "KLAC"; "KMB"; "KMI"; "KMX";
    "KO"; "KR"; "KSU"; "L"; "LB"; "LDOS"; "LEG"; "LEN"; "LH"; "LHX";
    "LIN"; "LKQ"; "LLY"; "LMT"; "LNC"; "LNT"; "LOW"; "LRCX"; "LUV";
    "LW"; "LYB"; "M"; "MA"; "MAA"; "MAR"; "MAS"; "MCD"; "MCHP"; "MCK";
    "MCO"; "MDLZ"; "MDT"; "MET"; "MGM"; "MHK"; "MKC"; "MKTX"; "MLM";
    "MMC"; "MMM"; "MNST"; "MO"; "MOS"; "MPC"; "MRK"; "MRNA"; "MRO";
    "MS"; "MSCI"; "MSI"; "MTB"; "MTD"; "MU"; "NCLH"; "NDAQ"; "NEE";
    "NEM"; "NFLX"; "NI"; "NKE"; "NLOK"; "NOC"; "NOV"; "NRG"; "NSC";
    "NTAP"; "NTRS"; "NUE"; "NVDA"; "NVR"; "NWL"; "NWS"; "NWSA"; "O";
    "ODFL"; "OKE"; "OMC"; "ORCL"; "ORLY"; "OXY"; "PAYX"; "PCAR";
    "PEG"; "PEP"; "PFE"; "PG"; "PGR"; "PH"; "PHM"; "PKG"; "PKI";
    "PLD"; "PM"; "PNC"; "PNR"; "PNW"; "PPG"; "PPL"; "PRU"; "PSA";
    "PSX"; "PWR"; "PXD"; "QCOM"; "QRVO"; "RCL"; "RE"; "REG"; "REGN";
    "RF"; "RHI"; "RJF"; "RL"; "RMD"; "ROK"; "ROL"; "ROP"; "ROST";
    "RSG"; "RTX"; "SBAC"; "SBUX"; "SCHW"; "SEE"; "SHW"; "SIVB"; "SJM";
    "SLB"; "SNA"; "SNPS"; "SO"; "SPG"; "SPGI"; "SRE"; "STE"; "STT";
    "STX"; "STZ"; "SWK"; "SWKS"; "SYY"; "T"; "TAP"; "TDG"; "TDY";
    "TEL"; "TER"; "TFC"; "TFX"; "TGT"; "TMO"; "TMUS"; "TPG"; "TROW";
    "TRMB"; "TSN"; "TT"; "TTWO"; "TWTR"; "TXN"; "TXT"; "TYL"; "UA";
    "UAA"; "UAL"; "UDR"; "UHS"; "ULTA"; "UNH"; "UNM"; "UNP"; "UPS";
    "URI"; "USB"; "V"; "VFC"; "VLO"; "VMC"; "VRSK"; "VRTX"; "VTR";
    "VTRS"; "VZ"; "WAB"; "WAT"; "WBA"; "WEC"; "WELL"; "WFC"; "WHR";
    "WM"; "WMB"; "WMT"; "WRB"; "WY"; "WYNN"; "XEL"; "XLNX"; "XOM";
    "XRAY"; "XYL"; "YUM"; "ZBH"; "ZBRA"; "ZION"; "ZTS"
  ]%string.

(** [_get_sp500_tickers]: [major_stocks[:100]]. *)
Definition _get_sp500_tickers : list string := firstn 100 major_stocks.

(** No string occurs twice. *)
Fixpoint nodupb (l : list string) : bool :=
  match l with
  | [] => true
  | x :: t => negb (existsb (String.eqb x) t) && nodupb t
  end.

(** ** Orchestrator *)

Section Orchestrator.

Variable fsqrt : num -> num.

(** The data-fetch collaborator: [None] when the provider fails or
    returns an empty frame. *)
Variable fetch_stock_data : string -> option TimeSeries.

(** One iteration of the loop of [analyze_stocks] on [results]. *)
Definition analyze_step (results : list Scored) (tk : string)
    : list Scored :=
  match fetch_stock_data tk with
  | None => results
  | Some data =>
    match calculate_momentum_indicators fsqrt (Some data) tk with
    | None => results
    | Some indicators =>
        results ++
        [ {| indicators_of := indicators;
             momentum_score := calculate_momentum_score (Some indicators) |} ]
    end
  end.

Definition analyze_stocks (sp500_tickers : list string) : list Scored :=
  fold_left analyze_step sp500_tickers [].

End Orchestrator.

(** ** Ranking and filter engine *)

(** Python's [l[:stop]]: a negative bound counts from the end, and the
    bound is clipped to the list. *)
Definition slice_to {A} (l : list A) (stop : Z) : list A :=
  let j := (if stop <? 0 then Z.of_nat (length l) + stop else stop)%Z in
  firstn (Z.to_nat j) l.

(** Python's [l[start:]], with the same treatment of the bound. *)
Definition slice_from {A} (l : list A) (start : Z) : list A :=
  let j := (if start <? 0 then Z.of_nat (length l) + start else start)%Z in
  skipn (Z.to_nat j) l.

(** Stable insertion by [<] on the key: [x] goes after the entries whose
    key is not larger than its own. *)
Fixpoint insert_by {A} (key : A -> num) (x : A) (l : list A) : list A :=
  match l with
  | [] => [x]
  | y :: t =>
      if fltb (key x) (key y) then x :: y :: t
      else y :: insert_by key x t
  end.

(** [sorted(l, key=key, reverse=True)]: CPython reverses the list, sorts
    it stably in ascending order with [<] alone and reverses the result,
    so that entries with equal keys keep their original order.  The
    stable sort is written as an insertion sort; on keys that can be
    compared (no NaN) every stable sort returns the same list. *)
Definition sorted_reverse {A} (key : A -> num) (l : list A) : list A :=
  rev (fold_left (fun acc x => insert_by key x acc) (rev l) []).

(** The condition of the list comprehension of [get_recommendations]:
    [r['volatility'] < 50 and r['current_price'] > 5]. *)
Definition passes_filter (r : Scored) : bool :=
  fltb (volatility (indicators_of r)) (Fin 50)
  && fgtb (current_price (indicators_of r)) (Fin 5).

Definition filtered_results (results : list Scored) : list Scored :=
  filter passes_filter results.

Definition sorted_results (results : list Scored) : list Scored :=
  sorted_reverse momentum_score (filtered_results results).

Definition get_recommendations (results : list Scored) (top_n : Z)
    : list Scored * list Scored :=
  match results with
  | [] => ([], [])
  | _ :: _ =>
      let sorted := sorted_results results in
      (* Top buys (highest momentum scores) *)
      let top_buys := slice_to sorted top_n in
      (* Top sells (lowest momentum scores) *)
      let top_sells := slice_from sorted (- top_n) in
      (top_buys, top_sells)
  end.

(** ** A computable square root for worked examples

    [fsqrt_floor] rounds the square root down to twelve decimal places.
    It only instantiates the parameter [fsqrt] when a theorem is
    evaluated on a concrete series; no theorem depends on its value. *)

Definition Qsqrt_floor (a : Q) : Q :=
  Qred (Z.sqrt (Qnum a * Zpos (Qden a) * 10 ^ 24) # (Qden a * 10 ^ 12)).

Definition fsqrt_floor (x : num) : num :=
  match x with
  | Fin a => if Qltb a 0 then NaN else Fin (Qsqrt_floor a)
  | PInf => PInf
  | NInf | NaN => NaN
  end.

(** A bar with integral close and volume. *)
Definition bar (c v : Z) : Bar :=
  {| Close := Fin (inject_Z c); Volume := Fin (inject_Z v) |}.

(** ** Statement vocabulary *)

(** [x] clamped to [[lo, hi]]. *)
Definition fclamp (lo hi x : num) : num :=
  if fltb x lo then lo else if fltb hi x then hi else x.

(** A capped factor: [points] is the raw contribution [raw] clamped to
    [[-cap, cap]], it stays in that interval, and it keeps the sign of
    the raw contribution. *)
Definition capped_at (cap : Q) (raw points : num) : Prop :=
  feq points (fclamp (Fin (- cap)) (Fin cap) raw)
  /\ (is_nan raw = false ->
      fleb (Fin (- cap)) points = true /\ fleb points (Fin cap) = true)
  /\ (fgtb raw (Fin 0) = true -> fgtb points (Fin 0) = true)
  /\ (fltb raw (Fin 0) = true -> fltb points (Fin 0) = true).

(** Points of the rules that are not capped returns: RSI zone, volume
    confirmation and price against the two moving averages. *)
Definition rsi_rule_points (ind : Indicators) : Q :=
  if fleb (Fin 30) (rsi ind) && fleb (rsi ind) (Fin 70) then 5
  else if fgtb (rsi ind) (Fin 80) then -10
  else if fltb (rsi ind) (Fin 20) then 10
  else 0.

Definition volume_rule_points (ind : Indicators) : Q :=
  if fgtb (volume_ratio ind) (Fin (12 # 10)) then 5
  else if fltb (volume_ratio ind) (Fin (8 # 10)) then -5
  else 0.

Definition sma_rule_points (ind : Indicators) : Q :=
  (if fgtb (price_vs_sma20 ind) (Fin 0) then 3 else 0)
  + (if fgtb (price_vs_sma50 ind) (Fin 0) then 2 else 0).

(** The series is absent or has fewer than 20 bars. *)
Definition short_or_absent (data : option TimeSeries) : Prop :=
  match data with
  | None => True
  | Some s => (length s < 20)%nat
  end.

(** The [k]-th close counted from the end: [k = 1] is the last bar,
    [data['Close'].iloc[-k]]. *)
Definition close_from_end (data : TimeSeries) (k : nat) : num :=
  nth (length data - k) (map Close data) NaN.

(** The reference close in the words of the specification: the close [n]
    bars before the last bar, or the earliest close when the series has
    no bar that far back. *)
Definition spec_reference_close (data : TimeSeries) (n : nat) : num :=
  if (n + 1 <=? length data)%nat
  then nth (length data - 1 - n) (map Close data) NaN
  else nth 0 (map Close data) NaN.

(** Worked records for the scoring rules: a 1-week return of +500 %,
    and the record of the specification's example scenario. *)
Definition surge_record : Indicators :=
  {| ticker := "SURGE"; current_price := Fin 60;
     returns_1w := Fin 500; returns_1m := Fin 500; returns_3m := Fin 500;
     rsi := Fin 95; sma_20 := Fin 20; sma_50 := Fin 15;
     volume_ratio := Fin 3; volatility := Fin 40;
     price_vs_sma20 := Fin 200; price_vs_sma50 := Fin 300 |}.

Definition scenario_record : Indicators :=
  {| ticker := "SCEN"; current_price := Fin 110;
     returns_1w := Fin 10; returns_1m := Fin 5; returns_3m := Fin 2;
     rsi := Fin 50; sma_20 := Fin 100; sma_50 := Fin 88;
     volume_ratio := Fin (3 # 2); volatility := Fin 2;
     price_vs_sma20 := Fin 10; price_vs_sma50 := Fin 25 |}.

(** A scored record with the given ticker, price, volatility and score;
    the fields that ranking does not read are left at neutral values. *)
Definition scored (tk : string) (price vol score : Q) : Scored :=
  {| indicators_of :=
       {| ticker := tk; current_price := Fin price;
          returns_1w := Fin 0; returns_1m := Fin 0; returns_3m := Fin 0;
          rsi := Fin 50; sma_20 := Fin price; sma_50 := Fin price;
          volume_ratio := Fin 1; volatility := Fin vol;
          price_vs_sma20 := Fin 0; price_vs_sma50 := Fin 0 |};
     momentum_score := Fin score |}.

(** Five records that pass the filter, with scores 50, 30, 10, -5 and
    -20 given out of order. *)
Definition crafted : list Scored :=
  [ scored "C" 100 20 10; scored "A" 100 20 50; scored "E" 100 20 (-20);
    scored "B" 100 20 30; scored "D" 100 20 (-5) ].

(** A too volatile record and a penny stock, both with a high score. *)
Definition risky : list Scored :=
  [ scored "V" 100 60 99; scored "P" 3 10 99 ].

(** Orders on entries compared by a key, and entries whose key can be
    compared at all. *)
Definition asc {A} (key : A -> num) (a b : A) : Prop :=
  fleb (key a) (key b) = true.

Definition desc {A} (key : A -> num) (a b : A) : Prop :=
  fleb (key b) (key a) = true.

Definition comparable {A} (key : A -> num) (a : A) : Prop :=
  is_nan (key a) = false.

(** The earliest close of the series, [data['Close'].iloc[0]]. *)
Definition earliest_close (data : TimeSeries) : num :=
  nth 0 (map Close data) NaN.

(** Worked series: closes 1, 2, ..., [n]; [n] bars at a constant close
    of 10; [n] bars whose close is 0.  Volumes are 100 throughout. *)
Definition ramp (n : nat) : TimeSeries :=
  map (fun i => bar (Z.of_nat i) 100) (seq 1 n).

Definition flat (n : nat) : TimeSeries := repeat (bar 10 100) n.

Definition zeros (n : nat) : TimeSeries := repeat (bar 0 100) n.

(** A data feed with 25 bars for "AAA", 19 bars for "BBB" and nothing
    for any other ticker. *)
Definition sample_feed (tk : string) : option TimeSeries :=
  if String.eqb tk "AAA" then Some (ramp 25)
  else if String.eqb tk "BBB" then Some (ramp 19)
  else None.

Definition sample_universe : list string :=
  ["AAA"; "BBB"; "CCC"]%string.

(** The record was computed from a fetched series of at least 20 bars. *)
Definition from_long_series
    (fetch_stock_data : string -> option TimeSeries) (r : Scored) : Prop :=
  exists s, fetch_stock_data (ticker (indicators_of r)) = Some s
            /\ (20 <= length s)%nat.

(** [P] holds of the record, and there is a record. *)
Definition with_record (o : option Indicators) (P : Indicators -> Prop)
    : Prop :=
  match o with
  | Some ind => P ind
  | None => False
  end.

(** A valid bar has a positive close and a non-negative volume, both
    finite; a valid series has only valid bars. *)
Definition valid_bar (b : Bar) : bool :=
  match Close b, Volume b with
  | Fin c, Fin v => Qltb 0 c && negb (Qltb v 0)
  | _, _ => false
  end.

Definition valid_series (data : TimeSeries) : Prop :=
  Forall (fun b => valid_bar b = true) data.

(** A non-negative rational; a rational; a rational or NaN. *)
Definition nonneg (x : num) : Prop := exists q, x = Fin q /\ 0 <= q.

Definition finite (x : num) : Prop := exists q, x = Fin q.

Definition finite_or_nan (x : num) : Prop := x = NaN \/ finite x.

(** Equal as numbers; NaN is equal to nothing. *)
Definition feqb (x y : num) : bool :=
  match x, y with
  | Fin a, Fin b => Qeqb a b
  | PInf, PInf | NInf, NInf => true
  | _, _ => false
  end.

(** The entry has key [k]. *)
Definition tied {A} (key : A -> num) (k : num) (x : A) : bool :=
  feqb (key x) k.

(** The number of records that pass the filter. *)
Definition survivors (results : list Scored) : nat :=
  length (filtered_results results).

(** Three records with the same score between a higher and a lower one. *)
Definition with_ties : list Scored :=
  [ scored "T1" 100 20 7; scored "LO" 100 20 1; scored "T2" 100 20 7;
    scored "HI" 100 20 9; scored "T3" 100 20 7 ].

(** The record with its three returns replaced. *)
Definition set_returns (ind : Indicators) (r1w r1m r3m : num) : Indicators :=
  {| ticker := ticker ind; current_price := current_price ind;
     returns_1w := r1w; returns_1m := r1m; returns_3m := r3m;
     rsi := rsi ind; sma_20 := sma_20 ind; sma_50 := sma_50 ind;
     volume_ratio := volume_ratio ind; volatility := volatility ind;
     price_vs_sma20 := price_vs_sma20 ind;
     price_vs_sma50 := price_vs_sma50 ind |}.

(** A positive rational. *)
Definition positive (x : num) : Prop := exists q, x = Fin q /\ 0 < q.

(** A score that is a number of [-60, 65]. *)
Definition score_within_bounds (x : num) : Prop :=
  exists s, x = Fin s /\ -60 <= s <= 65.

(** The data feed has a series of at least 20 bars for the ticker. *)
Definition long_enough
    (fetch_stock_data : string -> option TimeSeries) (tk : string) : bool :=
  match fetch_stock_data tk with
  | Some data => negb (length data <? 20)%nat
  | None => false
  end.

(** The RSI the source computes from the closes of a non-empty series:
    [100 - 100 / (1 + gain / loss)] on the 14-bar means of the gains
    and of the losses. *)
Definition rsi_of_closes (close : list num) : num :=
  let delta := diff close in
  let gain :=
    rolling_mean_last 14 (where_or_zero (fun d => fgtb d (Fin 0)) delta) in
  let loss :=
    rolling_mean_last 14
      (map fneg (where_or_zero (fun d => fltb d (Fin 0)) delta)) in
  fsub (Fin 100) (fdiv (Fin 100) (fadd (Fin 1) (fdiv gain loss))).

(** The records one ticker adds to the run: at most one. *)
Definition analyze_one
    (fsqrt : num -> num) (fetch_stock_data : string -> option TimeSeries)
    (tk : string) : list Scored :=
  analyze_step fsqrt fetch_stock_data [] tk.

(** The last 14 day-over-day changes of the close, the window of the
    RSI. *)
Definition recent_changes (data : TimeSeries) : list num :=
  lastn 14 (diff (map Close data)).

(** A rational equal to zero; a negative rational. *)
Definition zeroish (x : num) : Prop := exists q, x = Fin q /\ q == 0.

Definition negative (x : num) : Prop := exists q, x = Fin q /\ q < 0.

(** Closes [n], [n - 1], ..., 1. *)
Definition slide (n : nat) : TimeSeries := rev (ramp n).

(** * Properties *)

(** ** Comparisons *)

Lemma Qltb_lt (a b : Q) : Qltb a b = true <-> a < b.
Proof.
  unfold Qltb. rewrite Qlt_alt.
  destruct (a ?= b); split; congruence.
Qed.

Lemma Qltb_ge (a b : Q) : Qltb a b = false <-> b <= a.
Proof.
  split; intro H.
  - apply Qnot_lt_le. intro L. apply Qltb_lt in L. congruence.
  - destruct (Qltb a b) eqn:E; trivial.
    apply Qltb_lt in E. exfalso. apply (Qlt_not_le _ _ E H).
Qed.

Lemma Qeqb_eq (a b : Q) : Qeqb a b = true <-> a == b.
Proof.
  unfold Qeqb. rewrite Qeq_alt.
  destruct (a ?= b); split; congruence.
Qed.

Lemma Qeqb_neq (a b : Q) : Qeqb a b = false <-> ~ a == b.
Proof.
  rewrite <- Qeqb_eq. destruct (Qeqb a b); split; congruence.
Qed.

Lemma feq_refl (x : num) : feq x x.
Proof. destruct x; simpl; trivial. reflexivity. Qed.

(** The special values behave as in IEEE arithmetic. *)
Example special_values :
  fdiv (Fin 0) (Fin 0) = NaN
  /\ fdiv (Fin 3) (Fin 0) = PInf
  /\ fdiv (Fin (-3)) (Fin 0) = NInf
  /\ fdiv (Fin 3) PInf = Fin 0
  /\ fadd PInf NInf = NaN
  /\ fltb NaN (Fin 1) = false
  /\ fltb (Fin 1) NaN = false
  /\ fleb NaN NaN = false
  /\ fltb NInf (Fin 1) = true
  /\ fltb (Fin 1) PInf = true
  /\ py_max NaN (Fin (-20)) = NaN
  /\ py_min PInf (Fin 20) = Fin 20.
Proof. repeat split. Qed.

(** Turns the boolean comparisons of the context and the goal into
    rational (in)equalities. *)
Ltac qbool :=
  repeat match goal with
  | H : Qltb _ _ = true |- _ => apply Qltb_lt in H
  | H : Qltb _ _ = false |- _ => apply Qltb_ge in H
  | H : Qeqb _ _ = true |- _ => apply Qeqb_eq in H
  | H : Qeqb _ _ = false |- _ => apply Qeqb_neq in H
  | |- Qltb _ _ = true => apply Qltb_lt
  | |- Qltb _ _ = false => apply Qltb_ge
  | |- Qeqb _ _ = true => apply Qeqb_eq
  | |- Qeqb _ _ = false => apply Qeqb_neq
  end.

(** ** Scoring engine *)

(** Case analysis on every rational comparison met while the goal is
    computed, closing the rational side conditions with [lra]. *)
Ltac qcases :=
  repeat match goal with
  | |- context [Qltb ?a ?b] =>
      let E := fresh "E" in destruct (Qltb a b) eqn:E; simpl
  | |- context [Qeqb ?a ?b] =>
      let E := fresh "E" in destruct (Qeqb a b) eqn:E; simpl
  end;
  qbool; try lra.

Ltac caps :=
  unfold capped_at, fclamp, py_min, py_max, fgtb, fleb;
  match goal with
  | |- context [fmul ?r _] => destruct r as [? | | |]
  end;
  simpl; qcases;
  repeat split; simpl; intros; try discriminate; try reflexivity; qcases.

Lemma short_term_capped (ind : Indicators) :
  capped_at 20 (fmul (returns_1w ind) (Fin 2)) (short_term_points ind).
Proof. unfold short_term_points. caps. Qed.

Lemma medium_term_capped (ind : Indicators) :
  capped_at 15 (fmul (returns_1m ind) (Fin (3 # 2))) (medium_term_points ind).
Proof. unfold medium_term_points. caps. Qed.

Lemma long_term_capped (ind : Indicators) :
  capped_at 10 (fmul (returns_3m ind) (Fin 1)) (long_term_points ind).
Proof. unfold long_term_points. caps. Qed.

Lemma fleb_between (lo hi : Q) (x : num) :
  fleb (Fin lo) x = true -> fleb x (Fin hi) = true ->
  exists c, x = Fin c /\ lo <= c <= hi.
Proof.
  destruct x as [c | | |]; simpl; try discriminate.
  intros L H. apply negb_true_iff in L, H. qbool.
  exists c. auto.
Qed.

Lemma is_nan_fmul_fin (r : num) (w : Q) :
  ~ w == 0 -> is_nan r = false -> is_nan (fmul r (Fin w)) = false.
Proof.
  intros W. destruct r; simpl; intros; try discriminate; trivial.
  - apply Qeqb_neq in W. rewrite W. destruct (Qltb 0 w); reflexivity.
  - apply Qeqb_neq in W. rewrite W. destruct (Qltb w 0); reflexivity.
Qed.

(** A capped factor whose return is not NaN is a rational within the cap. *)
Lemma capped_at_fin (cap : Q) (raw points : num) :
  capped_at cap raw points -> is_nan raw = false ->
  exists c, points = Fin c /\ - cap <= c <= cap.
Proof.
  intros (_ & B & _) N. destruct (B N) as [L H].
  eapply fleb_between; eassumption.
Qed.

(** The score is the sum of the three capped return factors and of the
    points of the RSI, volume and moving-average rules. *)
Lemma score_split (ind : Indicators) :
  feq (calculate_momentum_score (Some ind))
      (fadd (fadd (fadd (fadd (Fin 0) (short_term_points ind))
                        (medium_term_points ind))
                  (long_term_points ind))
            (Fin (rsi_rule_points ind + volume_rule_points ind
                  + sma_rule_points ind))).
Proof.
  unfold calculate_momentum_score, rsi_rule_points, volume_rule_points,
    sma_rule_points.
  set (s := fadd (fadd (fadd (Fin 0) _) _) _).
  destruct (fleb (Fin 30) (rsi ind) && fleb (rsi ind) (Fin 70));
    [| destruct (fgtb (rsi ind) (Fin 80));
       [| destruct (fltb (rsi ind) (Fin 20))]];
  (destruct (fgtb (volume_ratio ind) (Fin (12 # 10)));
    [| destruct (fltb (volume_ratio ind) (Fin (8 # 10)))]);
  destruct (fgtb (price_vs_sma20 ind) (Fin 0));
  destruct (fgtb (price_vs_sma50 ind) (Fin 0));
  destruct s as [q | | |]; simpl; try exact I; ring.
Qed.

Lemma other_rules_bounds (ind : Indicators) :
  -15 <= rsi_rule_points ind + volume_rule_points ind + sma_rule_points ind
  <= 20.
Proof.
  unfold rsi_rule_points, volume_rule_points, sma_rule_points.
  destruct (fleb (Fin 30) (rsi ind) && fleb (rsi ind) (Fin 70));
    [| destruct (fgtb (rsi ind) (Fin 80));
       [| destruct (fltb (rsi ind) (Fin 20))]];
  (destruct (fgtb (volume_ratio ind) (Fin (12 # 10)));
    [| destruct (fltb (volume_ratio ind) (Fin (8 # 10)))]);
  destruct (fgtb (price_vs_sma20 ind) (Fin 0));
  destruct (fgtb (price_vs_sma50 ind) (Fin 0));
  lra.
Qed.

(** With returns that are numbers or infinities the score is a rational
    between -60 and 65, whatever the other fields hold. *)
Lemma score_bounds_of_returns (ind : Indicators) :
  is_nan (returns_1w ind) = false ->
  is_nan (returns_1m ind) = false ->
  is_nan (returns_3m ind) = false ->
  exists s, feq (calculate_momentum_score (Some ind)) (Fin s)
            /\ -60 <= s <= 65.
Proof.
  intros N1 N2 N3.
  destruct (capped_at_fin _ _ _ (short_term_capped ind)) as (c1 & E1 & B1).
  { apply is_nan_fmul_fin; [lra | exact N1]. }
  destruct (capped_at_fin _ _ _ (medium_term_capped ind)) as (c2 & E2 & B2).
  { apply is_nan_fmul_fin; [lra | exact N2]. }
  destruct (capped_at_fin _ _ _ (long_term_capped ind)) as (c3 & E3 & B3).
  { apply is_nan_fmul_fin; [lra | exact N3]. }
  pose proof (score_split ind) as S. rewrite E1, E2, E3 in S. simpl in S.
  pose proof (other_rules_bounds ind) as B.
  eexists. split; [exact S |]. lra.
Qed.

(** C5: each return-based contribution to the momentum score is the
    scaled return clamped symmetrically around zero: [returns_1w * 2] to
    [-20, 20], [returns_1m * 1.5] to [-15, 15] and [returns_3m * 1] to
    [-10, 10].  A positive raw contribution stays positive and a
    negative one stays negative, these three contributions are the first
    three terms of the score, and a 1-week return of +500 contributes
    exactly +20. *)
Theorem return_contributions_clamped (ind : Indicators) :
  capped_at 20 (fmul (returns_1w ind) (Fin 2)) (short_term_points ind)
  /\ capped_at 15 (fmul (returns_1m ind) (Fin (3 # 2)))
                 (medium_term_points ind)
  /\ capped_at 10 (fmul (returns_3m ind) (Fin 1)) (long_term_points ind)
  /\ feq (calculate_momentum_score (Some ind))
         (fadd (fadd (fadd (fadd (Fin 0) (short_term_points ind))
                           (medium_term_points ind))
                     (long_term_points ind))
               (Fin (rsi_rule_points ind + volume_rule_points ind
                     + sma_rule_points ind)))
  /\ (returns_1w ind = Fin 500 -> short_term_points ind = Fin 20).
Proof.
  split; [apply short_term_capped |].
  split; [apply medium_term_capped |].
  split; [apply long_term_capped |].
  split; [apply score_split |].
  intros E. unfold short_term_points. rewrite E. reflexivity.
Qed.

Lemma return_contributions_clamped_witness :
  returns_1w surge_record = Fin 500
  /\ short_term_points surge_record = Fin 20
  /\ fgtb (short_term_points surge_record) (Fin 0) = true.
Proof.
  destruct (return_contributions_clamped surge_record)
    as ((_ & _ & P & _) & _ & _ & _ & E).
  split; [reflexivity |].
  split; [apply E; reflexivity | apply P; reflexivity].
Defined.

(** C6: a record with returns_1w = 10, returns_1m = 5, returns_3m = 2,
    rsi = 50, volume_ratio = 1.5 and the price above both moving
    averages scores exactly 44.5. *)
Theorem example_scenario_score (ind : Indicators) :
  returns_1w ind = Fin 10 ->
  returns_1m ind = Fin 5 ->
  returns_3m ind = Fin 2 ->
  rsi ind = Fin 50 ->
  volume_ratio ind = Fin (3 # 2) ->
  fgtb (price_vs_sma20 ind) (Fin 0) = true ->
  fgtb (price_vs_sma50 ind) (Fin 0) = true ->
  feq (calculate_momentum_score (Some ind)) (Fin (89 # 2)).
Proof.
  intros W M L R V S20 S50.
  unfold calculate_momentum_score, short_term_points, medium_term_points,
    long_term_points.
  rewrite W, M, L, R, V, S20, S50. reflexivity.
Qed.

Lemma example_scenario_score_witness :
  feq (calculate_momentum_score (Some scenario_record)) (Fin (89 # 2)).
Proof.
  apply (example_scenario_score scenario_record); reflexivity.
Defined.

(** C10: when the seven fields read by the scoring rules are finite
    numbers, the momentum score is a number of the interval [-60, 65]. *)
Theorem score_in_range (ind : Indicators) :
  is_fin (returns_1w ind) = true ->
  is_fin (returns_1m ind) = true ->
  is_fin (returns_3m ind) = true ->
  is_fin (rsi ind) = true ->
  is_fin (volume_ratio ind) = true ->
  is_fin (price_vs_sma20 ind) = true ->
  is_fin (price_vs_sma50 ind) = true ->
  exists s, calculate_momentum_score (Some ind) = Fin s /\ -60 <= s <= 65.
Proof.
  intros F1 F2 F3 _ _ _ _.
  destruct (score_bounds_of_returns ind) as (s & E & B).
  - destruct (returns_1w ind); trivial; discriminate.
  - destruct (returns_1m ind); trivial; discriminate.
  - destruct (returns_3m ind); trivial; discriminate.
  - destruct (calculate_momentum_score (Some ind)) as [s' | | |];
      simpl in E; try contradiction.
    exists s'. split; [reflexivity |]. rewrite E. exact B.
Qed.

Lemma score_in_range_witness :
  exists s, calculate_momentum_score (Some surge_record) = Fin s
            /\ -60 <= s <= 65.
Proof.
  apply (score_in_range surge_record); reflexivity.
Defined.

(** ** Ranking and filter engine *)

Lemma insert_by_perm {A} (key : A -> num) (x : A) (l : list A) :
  Permutation (insert_by key x l) (x :: l).
Proof.
  induction l as [| y t IH]; simpl.
  - reflexivity.
  - destruct (fltb (key x) (key y)).
    + reflexivity.
    + rewrite IH. apply perm_swap.
Qed.

Lemma insertion_fold_perm {A} (key : A -> num) (l acc : list A) :
  Permutation (fold_left (fun acc x => insert_by key x acc) l acc)
              (l ++ acc).
Proof.
  revert acc. induction l as [| x t IH]; intros acc; simpl.
  - reflexivity.
  - rewrite IH, insert_by_perm. symmetry. apply Permutation_middle.
Qed.

(** Sorting keeps the records and their multiplicities. *)
Lemma sorted_reverse_perm {A} (key : A -> num) (l : list A) :
  Permutation (sorted_reverse key l) l.
Proof.
  unfold sorted_reverse.
  rewrite <- Permutation_rev, insertion_fold_perm, app_nil_r.
  symmetry. apply Permutation_rev.
Qed.

Lemma slice_to_incl {A} (l : list A) (stop : Z) (x : A) :
  In x (slice_to l stop) -> In x l.
Proof.
  unfold slice_to. intros H.
  rewrite <- (firstn_skipn (Z.to_nat (if (stop <? 0)%Z
                                      then (Z.of_nat (length l) + stop)%Z
                                      else stop)) l).
  apply in_or_app. left. exact H.
Qed.

Lemma slice_from_incl {A} (l : list A) (start : Z) (x : A) :
  In x (slice_from l start) -> In x l.
Proof.
  unfold slice_from. intros H.
  rewrite <- (firstn_skipn (Z.to_nat (if (start <? 0)%Z
                                      then (Z.of_nat (length l) + start)%Z
                                      else start)) l).
  apply in_or_app. right. exact H.
Qed.

(** Whatever [top_n] is, a recommended record is a record of the input
    that passes the filter. *)
Lemma recommended_is_filtered (results : list Scored) (top_n : Z) (r : Scored) :
  In r (fst (get_recommendations results top_n))
  \/ In r (snd (get_recommendations results top_n)) ->
  In r (filtered_results results).
Proof.
  unfold get_recommendations.
  destruct results as [| r0 rs]; simpl fst; simpl snd.
  - intros [[] | []].
  - intros H.
    apply (Permutation_in _ (sorted_reverse_perm momentum_score _)).
    destruct H as [H | H];
      [apply slice_to_incl in H | apply slice_from_incl in H]; exact H.
Qed.

Lemma fleb_trans (x y z : num) :
  fleb x y = true -> fleb y z = true -> fleb x z = true.
Proof.
  destruct x, y, z; simpl; intros H1 H2; try discriminate; trivial.
  apply negb_true_iff in H1, H2. apply negb_true_iff. qbool. lra.
Qed.

Lemma fltb_fleb (x y : num) : fltb x y = true -> fleb x y = true.
Proof.
  destruct x, y; simpl; intros H; try discriminate; trivial.
  apply negb_true_iff. qbool. lra.
Qed.

Lemma not_fltb_fleb (x y : num) :
  is_nan x = false -> is_nan y = false ->
  fltb x y = false -> fleb y x = true.
Proof.
  destruct x, y; simpl; intros; try discriminate; trivial.
  apply negb_true_iff. assumption.
Qed.

Lemma fleb_not_fltb (x y : num) : fleb x y = true -> fltb y x = false.
Proof.
  destruct x, y; simpl; intros H; try discriminate; trivial;
    now apply negb_true_iff in H.
Qed.

Section SortedReverse.

Context {A : Type} (key : A -> num).

Lemma insert_by_sorted (x : A) (l : list A) :
  comparable key x -> Forall (comparable key) l ->
  StronglySorted (asc key) l -> StronglySorted (asc key) (insert_by key x l).
Proof.
  intros Cx Cl S. induction S as [| y t S IH F]; simpl.
  - repeat constructor.
  - inversion Cl as [| ? ? Cy Ct]; subst.
    destruct (fltb (key x) (key y)) eqn:E.
    + constructor; [constructor; assumption |].
      constructor; [now apply fltb_fleb |].
      eapply Forall_impl; [| exact F].
      intros z Hz. eapply fleb_trans; [apply fltb_fleb, E | exact Hz].
    + constructor; [now apply IH |].
      apply Forall_forall. intros z Hz.
      apply (Permutation_in _ (insert_by_perm key x t)) in Hz.
      destruct Hz as [<- | Hz].
      * now apply not_fltb_fleb.
      * rewrite Forall_forall in F. now apply F.
Qed.

Lemma insertion_fold_sorted (l acc : list A) :
  Forall (comparable key) l -> Forall (comparable key) acc ->
  StronglySorted (asc key) acc ->
  StronglySorted (asc key)
    (fold_left (fun acc x => insert_by key x acc) l acc).
Proof.
  revert acc. induction l as [| x t IH]; intros acc Cl Ca S; simpl.
  - exact S.
  - inversion Cl as [| ? ? Cx Ct]; subst.
    apply IH; trivial.
    + apply Forall_forall. intros z Hz.
      apply (Permutation_in _ (insert_by_perm key x acc)) in Hz.
      destruct Hz as [<- | Hz]; trivial.
      rewrite Forall_forall in Ca. now apply Ca.
    + now apply insert_by_sorted.
Qed.

Lemma rev_sorted (l : list A) :
  StronglySorted (asc key) l -> StronglySorted (desc key) (rev l).
Proof.
  induction 1 as [| y t S IH F]; simpl.
  - constructor.
  - assert (G : Forall (fun z => desc key z y) (rev t)).
    { apply Forall_rev. exact F. }
    clear F S. induction IH as [| z u S IH' F']; simpl.
    + repeat constructor.
    + inversion G; subst. constructor; [now apply IH' |].
      apply Forall_app. split; [exact F' |]. repeat constructor. assumption.
Qed.

(** On keys that are not NaN, [sorted_reverse] returns the entries in
    descending order of key. *)
Lemma sorted_reverse_descending (l : list A) :
  Forall (comparable key) l ->
  StronglySorted (desc key) (sorted_reverse key l).
Proof.
  intros C. unfold sorted_reverse. apply rev_sorted.
  apply insertion_fold_sorted.
  - now apply Forall_rev.
  - constructor.
  - constructor.
Qed.

End SortedReverse.

Lemma filter_none {A} (f : A -> bool) (l : list A) :
  (forall x, In x l -> f x = false) -> filter f l = [].
Proof.
  induction l as [| x t IH]; simpl; intros H; trivial.
  rewrite (H x (or_introl eq_refl)). apply IH.
  intros y Hy. apply H. now right.
Qed.

(** For [top_n >= 1] the two slices are the first and the last [top_n]
    entries of the sorted sequence. *)
Lemma get_recommendations_positive (results : list Scored) (top_n : Z) :
  (1 <= top_n)%Z ->
  get_recommendations results top_n =
  (firstn (Z.to_nat top_n) (sorted_results results),
   lastn (Z.to_nat top_n) (sorted_results results)).
Proof.
  intros P. unfold get_recommendations, lastn.
  destruct results as [| r0 rs].
  - unfold sorted_results. simpl. now rewrite firstn_nil.
  - unfold slice_to, slice_from.
    destruct (top_n <? 0)%Z eqn:E1; [lia |].
    destruct (- top_n <? 0)%Z eqn:E2; [| lia].
    do 2 f_equal. lia.
Qed.

(** The sorted sequence holds the filtered records, each as often as the
    filter kept it, in descending order of score when no score is NaN. *)
Lemma sorted_results_spec (results : list Scored) :
  Permutation (sorted_results results) (filtered_results results)
  /\ (Forall (comparable momentum_score) results ->
      StronglySorted (desc momentum_score) (sorted_results results)).
Proof.
  split.
  - apply sorted_reverse_perm.
  - intros C. apply sorted_reverse_descending.
    rewrite Forall_forall in *. intros r Hr.
    apply C. unfold filtered_results in Hr.
    apply filter_In in Hr. tauto.
Qed.

(** The specification's crafted set: scores 50, 30, 10, -5, -20 with
    [top_n = 2] give buy = [50, 30] and sell = [-5, -20]. *)
Example crafted_top_2 :
  map momentum_score (fst (get_recommendations crafted 2))
  = [Fin 50; Fin 30]
  /\ map momentum_score (snd (get_recommendations crafted 2))
     = [Fin (-5); Fin (-20)].
Proof. split; reflexivity. Qed.

(** C1: at [top_n = 0] the sell list is not the last 0 entries of the
    sorted sequence: [sorted_results[-0:]] is the whole sequence.  On
    the crafted set the buy list is empty and the sell list holds all
    five records, in the order 50, 30, 10, -5, -20. *)
Theorem sell_list_at_top_n_zero :
  get_recommendations crafted 0 = ([], sorted_results crafted)
  /\ map momentum_score (snd (get_recommendations crafted 0))
     = [Fin 50; Fin 30; Fin 10; Fin (-5); Fin (-20)]
  /\ lastn 0 (sorted_results crafted) = [].
Proof. repeat split. Qed.

(** C8: the filter keeps exactly the records with volatility < 50 and
    current_price > 5, the sorted sequence is a rearrangement of the
    kept records, and a record with volatility >= 50 or
    current_price <= 5 is in neither the buy list nor the sell list,
    whatever [top_n] is. *)
Theorem filter_excludes_risky
    (results : list Scored) (top_n : Z) (r : Scored) :
  (In r (filtered_results results) <->
   In r results
   /\ fltb (volatility (indicators_of r)) (Fin 50) = true
   /\ fgtb (current_price (indicators_of r)) (Fin 5) = true)
  /\ Permutation (sorted_results results) (filtered_results results)
  /\ (fleb (Fin 50) (volatility (indicators_of r)) = true
      \/ fleb (current_price (indicators_of r)) (Fin 5) = true ->
      ~ In r (fst (get_recommendations results top_n))
      /\ ~ In r (snd (get_recommendations results top_n))).
Proof.
  assert (K : In r (filtered_results results) <->
              In r results
              /\ fltb (volatility (indicators_of r)) (Fin 50) = true
              /\ fgtb (current_price (indicators_of r)) (Fin 5) = true).
  { unfold filtered_results, passes_filter.
    rewrite filter_In, andb_true_iff. reflexivity. }
  split; [exact K |].
  split; [apply sorted_results_spec |].
  intros Risk.
  assert (N : ~ In r (filtered_results results)).
  { rewrite K. intros (_ & V & P).
    destruct Risk as [R | R]; apply fleb_not_fltb in R.
    - congruence.
    - unfold fgtb in P. congruence. }
  split; intros H; apply N, (recommended_is_filtered results top_n); auto.
Qed.

Lemma filter_excludes_risky_witness :
  ~ In (scored "V" 100 60 99)
       (fst (get_recommendations (crafted ++ risky) 5))
  /\ ~ In (scored "V" 100 60 99)
          (snd (get_recommendations (crafted ++ risky) 5)).
Proof.
  apply (filter_excludes_risky (crafted ++ risky) 5 (scored "V" 100 60 99)).
  left. reflexivity.
Defined.

(** C9: whatever [top_n] is, an empty set of scored records, or a set
    none of whose records survives the volatility/price filter, gives an
    empty buy list and an empty sell list. *)
Theorem no_survivor_no_recommendation (results : list Scored) (top_n : Z) :
  get_recommendations [] top_n = ([], [])
  /\ ((forall r, In r results -> passes_filter r = false) ->
      get_recommendations results top_n = ([], [])).
Proof.
  split; [reflexivity |].
  intros H. unfold get_recommendations.
  destruct results as [| r0 rs]; trivial.
  unfold sorted_results, filtered_results.
  rewrite (filter_none _ _ H). unfold slice_to, slice_from. simpl.
  now rewrite firstn_nil, skipn_nil.
Qed.

Lemma no_survivor_no_recommendation_witness :
  get_recommendations risky 5 = ([], []).
Proof.
  apply (no_survivor_no_recommendation risky 5).
  intros r [<- | [<- | []]]; reflexivity.
Defined.

(** ** Indicator engine *)

Lemma iloc_from_end (l : list num) (k : nat) :
  (1 <= k <= length l)%nat ->
  iloc l (- Z.of_nat k) = nth (length l - k) l NaN.
Proof.
  intros K. unfold iloc.
  destruct (- Z.of_nat k <? 0)%Z eqn:E; [| lia].
  destruct (Z.of_nat (length l) + - Z.of_nat k <? 0)%Z eqn:F; [lia |].
  f_equal. lia.
Qed.

(** A record is returned exactly for a present series of at least 20
    bars, and it carries the ticker it was asked for. *)
Lemma indicators_some_inv fsqrt data tk ind :
  calculate_momentum_indicators fsqrt data tk = Some ind ->
  exists s, data = Some s /\ (20 <= length s)%nat /\ ticker ind = tk.
Proof.
  unfold calculate_momentum_indicators.
  destruct data as [s |]; [| discriminate].
  destruct (length s <? 20)%nat eqn:E; [discriminate |].
  intros H. injection H as <-. exists s.
  apply Nat.ltb_ge in E. auto.
Qed.

Lemma indicators_short fsqrt data tk :
  short_or_absent data ->
  calculate_momentum_indicators fsqrt data tk = None.
Proof.
  unfold calculate_momentum_indicators, short_or_absent.
  destruct data as [s |]; trivial.
  intros H. apply Nat.ltb_lt in H. now rewrite H.
Qed.

Section Analyze.

Variable fsqrt : num -> num.
Variable fetch_stock_data : string -> option TimeSeries.

Lemma analyze_step_long (results : list Scored) (tk : string) :
  Forall (from_long_series fetch_stock_data) results ->
  Forall (from_long_series fetch_stock_data)
    (analyze_step fsqrt fetch_stock_data results tk).
Proof.
  intros F. unfold analyze_step.
  destruct (fetch_stock_data tk) as [data |] eqn:E; trivial.
  destruct (calculate_momentum_indicators fsqrt (Some data) tk)
    as [ind |] eqn:C; trivial.
  apply Forall_app. split; trivial.
  constructor; [| constructor].
  apply indicators_some_inv in C. destruct C as (s & Es & L & T).
  injection Es as <-. exists data. simpl. rewrite T. auto.
Qed.

Lemma analyze_stocks_long (tickers : list string) (results : list Scored) :
  Forall (from_long_series fetch_stock_data) results ->
  Forall (from_long_series fetch_stock_data)
    (fold_left (analyze_step fsqrt fetch_stock_data) tickers results).
Proof.
  revert results. induction tickers as [| tk t IH]; intros results F; simpl.
  - exact F.
  - apply IH, analyze_step_long, F.
Qed.

End Analyze.

(** C7: an absent series, or one with fewer than 20 bars, gives no
    indicator record; and when the data feed has such a series for a
    ticker, no scored record of the run carries that ticker, whatever
    the ticker universe is. *)
Theorem short_series_never_scored
    (fsqrt : num -> num) (fetch_stock_data : string -> option TimeSeries)
    (sp500_tickers : list string) (data : option TimeSeries) (tk : string) :
  short_or_absent data ->
  calculate_momentum_indicators fsqrt data tk = None
  /\ (fetch_stock_data tk = data ->
      forall r, In r (analyze_stocks fsqrt fetch_stock_data sp500_tickers) ->
                ticker (indicators_of r) <> tk).
Proof.
  intros S. split; [now apply indicators_short |].
  intros E r Hr T.
  pose proof (analyze_stocks_long fsqrt fetch_stock_data sp500_tickers []
                (Forall_nil _)) as F.
  rewrite Forall_forall in F. destruct (F r Hr) as (s & Es & L).
  rewrite T, E in Es. rewrite Es in S. unfold short_or_absent in S. lia.
Qed.

Lemma short_series_never_scored_witness :
  calculate_momentum_indicators fsqrt_floor (Some (ramp 19)) "BBB" = None
  /\ forall r,
       In r (analyze_stocks fsqrt_floor sample_feed sample_universe) ->
       ticker (indicators_of r) <> "BBB"%string.
Proof.
  destruct (short_series_never_scored fsqrt_floor sample_feed
              sample_universe (Some (ramp 19)) "BBB"%string)
    as [N K].
  - unfold short_or_absent, ramp. rewrite length_map, length_seq. lia.
  - split; [exact N | apply K; reflexivity].
Defined.

(** On the sample feed only "AAA", the one ticker with 20 bars or more,
    is scored. *)
Example sample_run_tickers :
  map (fun r => ticker (indicators_of r))
      (analyze_stocks fsqrt_floor sample_feed sample_universe)
  = ["AAA"%string].
Proof. vm_compute. reflexivity. Qed.

(** The reference closes the source reads, for a series of at least 20
    bars. *)
Lemma reference_closes (data : TimeSeries) :
  (20 <= length data)%nat ->
  iloc (map Close data) (-1) = close_from_end data 1
  /\ iloc (map Close data) (-5) = close_from_end data 5
  /\ iloc (map Close data) (-20) = close_from_end data 20
  /\ ((60 <= length data)%nat ->
      iloc (map Close data) (-60) = close_from_end data 60)
  /\ iloc (map Close data) 0 = earliest_close data.
Proof.
  intros L. unfold close_from_end.
  rewrite <- (length_map Close data) in *.
  repeat split.
  - apply (iloc_from_end _ 1). lia.
  - apply (iloc_from_end _ 5). lia.
  - apply (iloc_from_end _ 20). lia.
  - intros L60. apply (iloc_from_end _ 60). lia.
Qed.

(** C4, as the code has it: for a series of at least 20 bars a record is
    returned; the reference closes of returns_1w, returns_1m and
    returns_3m are the 5th, 20th and 60th closes counted from the end
    with the last bar counted as the first (that is 4, 19 and 59 bars
    before the last bar), the 3-month reference being the earliest close
    when the series has fewer than 60 bars; and each return is
    (current close - reference close) / reference close * 100. *)
Theorem return_reference_closes
    (fsqrt : num -> num) (data : TimeSeries) (tk : string) :
  (20 <= length data)%nat ->
  exists ind,
    calculate_momentum_indicators fsqrt (Some data) tk = Some ind
    /\ current_price ind = close_from_end data 1
    /\ returns_1w ind
       = pct_return (close_from_end data 1) (close_from_end data 5)
    /\ returns_1m ind
       = pct_return (close_from_end data 1) (close_from_end data 20)
    /\ returns_3m ind
       = pct_return (close_from_end data 1)
           (if (60 <=? length data)%nat then close_from_end data 60
            else earliest_close data)
    /\ (forall current reference,
          pct_return current reference
          = fmul (fdiv (fsub current reference) reference) (Fin 100)).
Proof.
  intros L.
  destruct (reference_closes data L) as (E1 & E5 & E20 & E60 & E0).
  unfold calculate_momentum_indicators.
  assert (L20 : (length data <? 20)%nat = false) by now apply Nat.ltb_ge.
  assert (G5 : (5 <=? length data)%nat = true) by (apply Nat.leb_le; lia).
  assert (G20 : (20 <=? length data)%nat = true) by (apply Nat.leb_le; lia).
  rewrite L20, G5, G20.
  destruct (60 <=? length data)%nat eqn:G60.
  - apply Nat.leb_le in G60. specialize (E60 G60).
    eexists. split; [reflexivity |]. simpl.
    rewrite E1, E5, E20, E60. repeat split.
  - eexists. split; [reflexivity |]. simpl.
    rewrite E1, E5, E20, E0. repeat split.
Qed.

Lemma return_reference_closes_witness :
  with_record (calculate_momentum_indicators fsqrt_floor
                 (Some (ramp 20)) "RAMP")
    (fun ind => returns_1w ind = pct_return (Fin 20) (Fin 16)
                /\ returns_3m ind = pct_return (Fin 20) (Fin 1)).
Proof.
  destruct (return_reference_closes fsqrt_floor (ramp 20) "RAMP")
    as (ind & E & _ & W & _ & Q & _).
  - unfold ramp. rewrite length_map, length_seq. lia.
  - rewrite E. simpl. split; [exact W | exact Q].
Defined.

(** Counterexample to C4: on the closes 1, 2, ..., 20 the code's 1-week
    return is (20 - 16) / 16 * 100 = 25, computed from the close 4 bars
    before the last one; with the close 5 bars before the last bar, 15,
    the return would be 100/3. *)
Lemma one_week_reference_is_not_five_bars_back :
  with_record (calculate_momentum_indicators fsqrt_floor
                 (Some (ramp 20)) "RAMP")
    (fun ind =>
       feq (returns_1w ind) (Fin 25)
       /\ spec_reference_close (ramp 20) 5 = Fin 15
       /\ feq (pct_return (current_price ind)
                  (spec_reference_close (ramp 20) 5))
              (Fin (100 # 3))
       /\ ~ feq (returns_1w ind)
                (pct_return (current_price ind)
                   (spec_reference_close (ramp 20) 5))).
Proof.
  vm_compute. repeat split. intros H. discriminate H.
Qed.

(** The guards the source has: volume_ratio is 1 when the 20-bar mean
    volume is not positive and price_vs_sma50 is 0 when sma_50 is not
    positive, while price_vs_sma20 divides by sma_20 unconditionally. *)
Lemma guarded_ratios fsqrt (data : TimeSeries) tk ind :
  calculate_momentum_indicators fsqrt (Some data) tk = Some ind ->
  (fgtb (rolling_mean_last 20 (map Volume data)) (Fin 0) = false ->
   volume_ratio ind = Fin 1)
  /\ (fgtb (sma_50 ind) (Fin 0) = false -> price_vs_sma50 ind = Fin 0)
  /\ price_vs_sma20 ind
     = fmul (fdiv (fsub (current_price ind) (sma_20 ind)) (sma_20 ind))
            (Fin 100).
Proof.
  unfold calculate_momentum_indicators.
  destruct (length data <? 20)%nat; [discriminate |].
  intros H. injection H as <-. simpl.
  repeat split; intros G; now rewrite G.
Qed.

(** C2: on 20 bars at a constant close of 10 the gains and the losses
    of the RSI window are all zero, RS is 0/0 and the rsi field of the
    record is NaN: it is neither in [0, 100] nor the default 50, which
    the source substitutes only for an empty series.  The volume ratio
    of that record is 1. *)
Theorem rsi_of_flat_series_is_nan (fsqrt : num -> num) :
  with_record (calculate_momentum_indicators fsqrt (Some (flat 20)) "FLAT")
    (fun ind =>
       rsi ind = NaN
       /\ fleb (Fin 0) (rsi ind) && fleb (rsi ind) (Fin 100) = false
       /\ feq (volume_ratio ind) (Fin 1)).
Proof. vm_compute. repeat split. Qed.

(** C3: on 20 bars whose close is 0 the 20-bar average is 0 and
    price_vs_sma20 is computed by dividing by it: the field is NaN, not
    the neutral 0 that the guard on sma_50 gives price_vs_sma50 in the
    same record. *)
Theorem price_vs_sma20_is_unguarded (fsqrt : num -> num) :
  with_record (calculate_momentum_indicators fsqrt (Some (zeros 20)) "ZERO")
    (fun ind =>
       feq (sma_20 ind) (Fin 0)
       /\ price_vs_sma20 ind = NaN
       /\ feq (sma_50 ind) (Fin 0)
       /\ price_vs_sma50 ind = Fin 0).
Proof. vm_compute. repeat split. Qed.

(** ** Ranges of the RSI and of the volume ratio on valid series *)

Lemma fold_fadd_nonneg (l : list num) (acc : num) :
  nonneg acc -> Forall nonneg l -> nonneg (fold_left fadd l acc).
Proof.
  revert acc. induction l as [| x t IH]; intros acc A F; simpl; trivial.
  inversion F as [| ? ? (q & -> & Hq) Ft]; subst.
  destruct A as (a & -> & Ha).
  apply IH; trivial. exists (a + q). split; [reflexivity | lra].
Qed.

Lemma fsum_nonneg (l : list num) : Forall nonneg l -> nonneg (fsum l).
Proof.
  apply fold_fadd_nonneg. exists 0. split; [reflexivity | lra].
Qed.

Lemma lastn_Forall {A} (P : A -> Prop) (n : nat) (l : list A) :
  Forall P l -> Forall P (lastn n l).
Proof.
  unfold lastn. intros F.
  rewrite <- (firstn_skipn (length l - n) l) in F.
  apply Forall_app in F. tauto.
Qed.

Lemma lastn_length {A} (n : nat) (l : list A) :
  (n <= length l)%nat -> length (lastn n l) = n.
Proof. unfold lastn. rewrite length_skipn. lia. Qed.

Lemma of_nat_pos (n : nat) :
  (0 < n)%nat -> exists q, of_nat n = Fin q /\ 0 < q.
Proof.
  intros H. eexists. split; [reflexivity |].
  change 0 with (inject_Z 0). rewrite <- Zlt_Qlt. lia.
Qed.

(** A non-negative sum over a positive count is a non-negative number. *)
Lemma fdiv_nonneg_pos (s d : Q) :
  0 <= s -> 0 < d -> nonneg (fdiv (Fin s) (Fin d)).
Proof.
  intros S D. simpl.
  destruct (Qeqb d 0) eqn:E; qbool; [lra |].
  exists (s / d). split; [reflexivity |].
  apply Qle_shift_div_l; lra.
Qed.

Lemma rolling_mean_nonneg (w : nat) (l : list num) :
  (0 < w <= length l)%nat -> Forall nonneg l ->
  nonneg (rolling_mean_last w l).
Proof.
  intros [W L] F. unfold rolling_mean_last.
  destruct (length l <? w)%nat eqn:E; [apply Nat.ltb_lt in E; lia |].
  destruct (fsum_nonneg (lastn w l) (lastn_Forall _ _ _ F)) as (s & -> & S).
  destruct (of_nat_pos w W) as (d & -> & D).
  now apply fdiv_nonneg_pos.
Qed.

Lemma diff_from_finite (prev : num) (l : list num) :
  finite prev -> Forall finite l -> Forall finite_or_nan (diff_from prev l).
Proof.
  revert prev. induction l as [| x t IH]; intros prev P F; simpl.
  - constructor.
  - inversion F as [| ? ? (q & ->) Ft]; subst. destruct P as (p & ->).
    constructor.
    + right. eexists. reflexivity.
    + apply IH; trivial. eexists. reflexivity.
Qed.

Lemma diff_finite (l : list num) :
  Forall finite l -> Forall finite_or_nan (diff l).
Proof.
  destruct l as [| x t]; simpl; intros F; constructor.
  - now left.
  - inversion F; subst. now apply diff_from_finite.
Qed.

Lemma diff_from_length (prev : num) (l : list num) :
  length (diff_from prev l) = length l.
Proof.
  revert prev. induction l as [| x t IH]; intros prev; simpl; auto.
Qed.

Lemma diff_length (l : list num) : length (diff l) = length l.
Proof. destruct l; simpl; auto using diff_from_length. Qed.

(** The gains and the losses of the RSI are non-negative numbers. *)
Lemma gains_nonneg (l : list num) :
  Forall finite_or_nan l ->
  Forall nonneg (where_or_zero (fun d => fgtb d (Fin 0)) l).
Proof.
  intros F. unfold where_or_zero. apply Forall_map.
  eapply Forall_impl; [| exact F].
  intros d [-> | (q & ->)]; simpl.
  - exists 0. split; [reflexivity | lra].
  - destruct (Qltb 0 q) eqn:E; qbool.
    + exists q. split; [reflexivity | lra].
    + exists 0. split; [reflexivity | lra].
Qed.

Lemma losses_nonneg (l : list num) :
  Forall finite_or_nan l ->
  Forall nonneg (map fneg (where_or_zero (fun d => fltb d (Fin 0)) l)).
Proof.
  intros F. unfold where_or_zero. rewrite map_map. apply Forall_map.
  eapply Forall_impl; [| exact F].
  intros d [-> | (q & ->)]; simpl.
  - exists (- 0). split; [reflexivity | lra].
  - destruct (Qltb q 0) eqn:E; qbool.
    + exists (- q). split; [reflexivity | lra].
    + exists (- 0). split; [reflexivity | lra].
Qed.

(** [100 - 100 / (1 + gain / loss)] on non-negative means: NaN when both
    are zero, otherwise a number of [0, 100]. *)
Lemma rsi_formula_range (gain loss : num) :
  nonneg gain -> nonneg loss ->
  let r := fsub (Fin 100) (fdiv (Fin 100) (fadd (Fin 1) (fdiv gain loss))) in
  r = NaN \/ exists q, r = Fin q /\ 0 <= q <= 100.
Proof.
  intros (g & -> & G) (l & -> & L). simpl.
  destruct (Qeqb l 0) eqn:El.
  - destruct (Qeqb g 0) eqn:Eg; [now left |].
    qbool. right.
    assert (P : Qltb 0 g = true) by (apply Qltb_lt; lra).
    rewrite P. simpl. eexists. split; [reflexivity | lra].
  - qbool. right. simpl.
    assert (Q0 : 0 <= g / l) by (apply Qle_shift_div_l; lra).
    destruct (Qeqb (1 + g / l) 0) eqn:E1; qbool; [lra |].
    eexists. split; [reflexivity |].
    assert (0 <= 100 / (1 + g / l)) by (apply Qle_shift_div_l; lra).
    assert (100 / (1 + g / l) <= 100) by (apply Qle_shift_div_r; lra).
    lra.
Qed.

Lemma valid_closes_finite (data : TimeSeries) :
  valid_series data -> Forall finite (map Close data).
Proof.
  intros V. apply Forall_map. eapply Forall_impl; [| exact V].
  intros [c v]. unfold valid_bar. simpl.
  destruct c; try discriminate. eexists. reflexivity.
Qed.

Lemma valid_volumes_nonneg (data : TimeSeries) :
  valid_series data -> Forall nonneg (map Volume data).
Proof.
  intros V. apply Forall_map. eapply Forall_impl; [| exact V].
  intros [c v]. unfold valid_bar. simpl.
  destruct c, v; try discriminate.
  intros H. apply andb_true_iff in H. destruct H as [_ H].
  apply negb_true_iff in H. qbool. eexists. split; [reflexivity | exact H].
Qed.

Lemma series_mean_nonneg (l : list num) :
  l <> [] -> Forall nonneg l -> nonneg (series_mean l).
Proof.
  intros N F. unfold series_mean.
  assert (K : filter (fun x => negb (is_nan x)) l = l).
  { clear N. induction F as [| x t (q & -> & _) Ft IH]; simpl; congruence. }
  rewrite K.
  destruct (fsum_nonneg l F) as (s & -> & S).
  destruct (of_nat_pos (length l)) as (d & -> & D).
  - destruct l; [congruence | simpl; lia].
  - now apply fdiv_nonneg_pos.
Qed.

(** X9: on a valid series of at least 20 bars (finite positive closes,
    finite non-negative volumes) the rsi field is NaN or a number of
    [0, 100], and the volume ratio is a non-negative number. *)
Lemma valid_series_ranges fsqrt (data : TimeSeries) tk :
  valid_series data -> (20 <= length data)%nat ->
  with_record (calculate_momentum_indicators fsqrt (Some data) tk)
    (fun ind =>
       (rsi ind = NaN \/ exists q, rsi ind = Fin q /\ 0 <= q <= 100)
       /\ nonneg (volume_ratio ind)).
Proof.
  intros V L. unfold calculate_momentum_indicators.
  assert (L20 : (length data <? 20)%nat = false) by now apply Nat.ltb_ge.
  rewrite L20. unfold with_record.
  cbv beta iota zeta delta [rsi volume_ratio].
  split.
  - destruct data as [| b0 rest]; [simpl in L; lia |].
    set (d := b0 :: rest) in *.
    pose proof (diff_finite _ (valid_closes_finite d V)) as D.
    apply rsi_formula_range.
    + apply rolling_mean_nonneg; [| now apply gains_nonneg].
      unfold where_or_zero. rewrite length_map, diff_length, length_map. lia.
    + apply rolling_mean_nonneg; [| now apply losses_nonneg].
      unfold where_or_zero.
      rewrite !length_map, diff_length, length_map. lia.
  - pose proof (valid_volumes_nonneg data V) as N.
    assert (A : nonneg (rolling_mean_last 20 (map Volume data))).
    { apply rolling_mean_nonneg; trivial. rewrite length_map. lia. }
    destruct A as (a & Ea & A). rewrite Ea.
    unfold fgtb. simpl fltb.
    destruct (Qltb 0 a) eqn:E; [| exists 1; split; [reflexivity | lra]].
    qbool.
    assert (R : nonneg (series_mean (lastn 5 (map Volume data)))).
    { apply series_mean_nonneg; [| now apply lastn_Forall].
      intros C. apply (f_equal (@length num)) in C.
      rewrite lastn_length in C; [discriminate |].
      rewrite length_map. lia. }
    destruct R as (r & -> & R). now apply fdiv_nonneg_pos.
Qed.

(** ** Further properties of the ranking and filter engine *)

Lemma fltb_fleb_trans (x y z : num) :
  fltb x y = true -> fleb y z = true -> fltb x z = true.
Proof.
  destruct x, y, z; simpl; intros H1 H2; try discriminate; trivial.
  apply negb_true_iff in H2. qbool. lra.
Qed.

Lemma tied_not_fltb (a b k : num) :
  feqb a k = true -> feqb b k = true -> fltb a b = false.
Proof.
  destruct a, b, k; simpl; intros H1 H2; try discriminate; trivial.
  qbool. lra.
Qed.

Lemma sorted_app_inv {A} (R : A -> A -> Prop) (a b : list A) :
  StronglySorted R (a ++ b) ->
  StronglySorted R a /\ StronglySorted R b
  /\ (forall x y, In x a -> In y b -> R x y).
Proof.
  induction a as [| h t IH]; simpl; intros S.
  - repeat split; [constructor | exact S | intros x y []].
  - inversion S as [| ? ? St F]; subst.
    destruct (IH St) as (Sa & Sb & C).
    apply Forall_app in F. destruct F as [Fa Fb].
    repeat split; trivial.
    + now constructor.
    + intros x y [<- | Hx] Hy.
      * rewrite Forall_forall in Fb. now apply Fb.
      * now apply C.
Qed.

Lemma sorted_results_length (results : list Scored) :
  length (sorted_results results) = survivors results.
Proof. apply Permutation_length, sorted_reverse_perm. Qed.

Lemma sorted_results_descending (results : list Scored) :
  Forall (comparable momentum_score) results ->
  StronglySorted (desc momentum_score) (sorted_results results).
Proof.
  intros C. apply sorted_reverse_descending.
  rewrite Forall_forall in *. intros r Hr. apply C.
  unfold filtered_results in Hr. apply filter_In in Hr. tauto.
Qed.

Section Stability.

Context {A : Type} (key : A -> num) (k : num).

Lemma insert_by_tied (x : A) (acc : list A) :
  StronglySorted (asc key) acc ->
  filter (tied key k) (insert_by key x acc)
  = filter (tied key k) acc ++ (if tied key k x then [x] else []).
Proof.
  intros S. induction S as [| y t S IH F]; simpl.
  - destruct (tied key k x); reflexivity.
  - destruct (fltb (key x) (key y)) eqn:E; simpl.
    + destruct (tied key k x) eqn:Tx; [| now rewrite app_nil_r].
      assert (N : forall z, In z (y :: t) -> tied key k z = false).
      { intros z Hz. destruct (tied key k z) eqn:Tz; trivial.
        assert (L : fltb (key x) (key z) = true).
        { destruct Hz as [<- | Hz]; trivial.
          eapply fltb_fleb_trans; [exact E |].
          rewrite Forall_forall in F. now apply F. }
        unfold tied in *. rewrite (tied_not_fltb _ _ _ Tx Tz) in L.
        discriminate. }
      assert (K : filter (tied key k) (y :: t) = []) by now apply filter_none.
      simpl in K. rewrite K. reflexivity.
    + rewrite IH. destruct (tied key k y); reflexivity.
Qed.

Lemma insertion_fold_tied (l acc : list A) :
  Forall (comparable key) l -> Forall (comparable key) acc ->
  StronglySorted (asc key) acc ->
  filter (tied key k) (fold_left (fun acc x => insert_by key x acc) l acc)
  = filter (tied key k) acc ++ filter (tied key k) l.
Proof.
  revert acc. induction l as [| x t IH]; intros acc Cl Ca S; simpl.
  - now rewrite app_nil_r.
  - inversion Cl as [| ? ? Cx Ct]; subst.
    rewrite IH; trivial.
    + rewrite insert_by_tied by exact S. rewrite <- app_assoc.
      destruct (tied key k x); reflexivity.
    + apply Forall_forall. intros z Hz.
      apply (Permutation_in _ (insert_by_perm key x acc)) in Hz.
      destruct Hz as [<- | Hz]; trivial.
      rewrite Forall_forall in Ca. now apply Ca.
    + now apply insert_by_sorted.
Qed.

Lemma sorted_reverse_tied (l : list A) :
  Forall (comparable key) l ->
  filter (tied key k) (sorted_reverse key l) = filter (tied key k) l.
Proof.
  intros C. unfold sorted_reverse.
  rewrite filter_rev, insertion_fold_tied.
  - simpl. rewrite filter_rev. apply rev_involutive.
  - now apply Forall_rev.
  - constructor.
  - constructor.
Qed.

End Stability.

Lemma slice_sorted {A} (R : A -> A -> Prop) (l : list A) (n : nat) :
  StronglySorted R l ->
  StronglySorted R (firstn n l) /\ StronglySorted R (skipn n l).
Proof.
  intros S. rewrite <- (firstn_skipn n l) in S.
  apply sorted_app_inv in S. tauto.
Qed.

(** X1: for [top_n >= 1] the buy list is the first [top_n] and the sell
    list the last [top_n] entries of the sorted sequence, and both have
    min(top_n, number of records that pass the filter) entries. *)
Theorem top_n_slices (results : list Scored) (top_n : Z) :
  (1 <= top_n)%Z ->
  fst (get_recommendations results top_n)
  = firstn (Z.to_nat top_n) (sorted_results results)
  /\ snd (get_recommendations results top_n)
     = lastn (Z.to_nat top_n) (sorted_results results)
  /\ length (fst (get_recommendations results top_n))
     = Nat.min (Z.to_nat top_n) (survivors results)
  /\ length (snd (get_recommendations results top_n))
     = Nat.min (Z.to_nat top_n) (survivors results).
Proof.
  intros P. rewrite (get_recommendations_positive results top_n P).
  simpl fst. simpl snd. unfold lastn.
  rewrite length_firstn, length_skipn, sorted_results_length.
  repeat split; lia.
Qed.

Lemma top_n_slices_witness :
  length (fst (get_recommendations (crafted ++ risky) 3)) = 3%nat
  /\ length (snd (get_recommendations (crafted ++ risky) 7)) = 5%nat.
Proof.
  destruct (top_n_slices (crafted ++ risky) 3) as (_ & _ & B & _); [lia |].
  destruct (top_n_slices (crafted ++ risky) 7) as (_ & _ & _ & S); [lia |].
  split; [exact B | exact S].
Defined.

(** X2: when at least [2 * top_n] records pass the filter ([top_n >= 1])
    the buy and the sell list are disjoint segments of the sorted
    sequence, which is buy ++ middle ++ sell; and when no score is NaN
    every buy record scores at least as high as every sell record. *)
Theorem disjoint_slices (results : list Scored) (top_n : Z) :
  (1 <= top_n)%Z ->
  (2 * Z.to_nat top_n <= survivors results)%nat ->
  (exists middle,
      sorted_results results
      = fst (get_recommendations results top_n) ++ middle
        ++ snd (get_recommendations results top_n)
      /\ length middle = (survivors results - 2 * Z.to_nat top_n)%nat)
  /\ (Forall (comparable momentum_score) results ->
      forall b s,
        In b (fst (get_recommendations results top_n)) ->
        In s (snd (get_recommendations results top_n)) ->
        desc momentum_score b s).
Proof.
  intros P D. rewrite (get_recommendations_positive results top_n P).
  simpl fst. simpl snd. unfold lastn.
  pose proof (sorted_results_length results) as L.
  set (srt := sorted_results results) in *.
  set (n := Z.to_nat top_n) in *.
  assert (E : skipn (length srt - n) srt
              = skipn (length srt - 2 * n) (skipn n srt)).
  { rewrite skipn_skipn. f_equal. lia. }
  split.
  - exists (firstn (length srt - 2 * n) (skipn n srt)). split.
    + rewrite E, firstn_skipn, firstn_skipn. reflexivity.
    + rewrite length_firstn, length_skipn. lia.
  - intros C b s Hb Hs.
    pose proof (sorted_results_descending results C) as S.
    fold srt in S. rewrite <- (firstn_skipn n srt) in S.
    apply sorted_app_inv in S. destruct S as (_ & _ & K).
    apply K; trivial. rewrite E in Hs.
    rewrite <- (firstn_skipn (length srt - 2 * n) (skipn n srt)).
    apply in_or_app. now right.
Qed.

Lemma disjoint_slices_witness :
  desc momentum_score (scored "B" 100 20 30) (scored "D" 100 20 (-5)).
Proof.
  destruct (disjoint_slices crafted 2) as [_ K]; [lia | vm_compute; lia |].
  apply K.
  - repeat constructor.
  - right. left. reflexivity.
  - left. reflexivity.
Defined.

(** X3: when at most [top_n] records pass the filter ([top_n >= 1]) the
    buy list and the sell list are both the whole sorted sequence, so
    every surviving record is recommended as a buy and as a sell. *)
Theorem small_set_full_overlap (results : list Scored) (top_n : Z) :
  (1 <= top_n)%Z ->
  (survivors results <= Z.to_nat top_n)%nat ->
  get_recommendations results top_n
  = (sorted_results results, sorted_results results).
Proof.
  intros P D. rewrite (get_recommendations_positive results top_n P).
  unfold lastn. pose proof (sorted_results_length results) as L.
  rewrite firstn_all2 by lia.
  replace (length (sorted_results results) - Z.to_nat top_n)%nat
    with 0%nat by lia.
  reflexivity.
Qed.

Lemma small_set_full_overlap_witness :
  get_recommendations (crafted ++ risky) 5
  = (sorted_results (crafted ++ risky), sorted_results (crafted ++ risky)).
Proof.
  apply (small_set_full_overlap (crafted ++ risky) 5);
    [lia | vm_compute; lia].
Defined.

(** X4: [top_n = 0] gives an empty buy list and the whole sorted
    sequence as sell list; a negative [top_n] drops the last [-top_n]
    entries of the sorted sequence from the buy list and the first
    [-top_n] entries from the sell list. *)
Theorem nonpositive_top_n (results : list Scored) (top_n : Z) :
  get_recommendations results 0 = ([], sorted_results results)
  /\ ((top_n < 0)%Z ->
      get_recommendations results top_n
      = (firstn (survivors results - Z.to_nat (- top_n))
                (sorted_results results),
         skipn (Z.to_nat (- top_n)) (sorted_results results))).
Proof.
  unfold get_recommendations. destruct results as [| r0 rs].
  - split; [reflexivity |]. intros _.
    unfold sorted_results. simpl.
    destruct (Z.to_nat (- top_n)); reflexivity.
  - split; [reflexivity |]. intros N.
    unfold slice_to, slice_from.
    rewrite sorted_results_length.
    destruct (top_n <? 0)%Z eqn:E1; [| lia].
    destruct (- top_n <? 0)%Z eqn:E2; [lia |].
    do 2 f_equal. lia.
Qed.

Lemma nonpositive_top_n_witness :
  map momentum_score (fst (get_recommendations crafted (-2)))
  = [Fin 50; Fin 30; Fin 10]
  /\ map momentum_score (snd (get_recommendations crafted (-2)))
     = [Fin 10; Fin (-5); Fin (-20)].
Proof.
  destruct (nonpositive_top_n crafted (-2)) as [_ K].
  rewrite K by lia. split; reflexivity.
Defined.

(** X5: the ranking is stable: when no score is NaN, the records that
    share a score appear in the sorted sequence in the order in which
    the input lists them. *)
Theorem ranking_is_stable (results : list Scored) (k : num) :
  Forall (comparable momentum_score) results ->
  filter (tied momentum_score k) (sorted_results results)
  = filter (tied momentum_score k) (filtered_results results).
Proof.
  intros C. apply sorted_reverse_tied.
  rewrite Forall_forall in *. intros r Hr. apply C.
  unfold filtered_results in Hr. apply filter_In in Hr. tauto.
Qed.

Lemma ranking_is_stable_witness :
  map (fun r => ticker (indicators_of r))
      (filter (tied momentum_score (Fin 7)) (sorted_results with_ties))
  = ["T1"; "T2"; "T3"]%string.
Proof.
  rewrite (ranking_is_stable with_ties (Fin 7)).
  - reflexivity.
  - repeat constructor.
Defined.

(** X6: when no score is NaN, the sorted sequence, the buy list and the
    sell list are each in descending order of momentum_score, whatever
    [top_n] is. *)
Theorem recommendations_descending (results : list Scored) (top_n : Z) :
  Forall (comparable momentum_score) results ->
  StronglySorted (desc momentum_score) (sorted_results results)
  /\ StronglySorted (desc momentum_score)
       (fst (get_recommendations results top_n))
  /\ StronglySorted (desc momentum_score)
       (snd (get_recommendations results top_n)).
Proof.
  intros C. pose proof (sorted_results_descending results C) as S.
  split; [exact S |].
  unfold get_recommendations. destruct results as [| r0 rs].
  - split; constructor.
  - unfold slice_to, slice_from. simpl fst. simpl snd.
    split; eapply slice_sorted; exact S.
Qed.

Lemma recommendations_descending_witness :
  StronglySorted (desc momentum_score)
    (fst (get_recommendations with_ties 3)).
Proof.
  apply (recommendations_descending with_ties 3).
  repeat constructor.
Defined.

(** ** Further properties of the scoring engine *)

Lemma feq_nan (x : num) : feq x NaN -> x = NaN.
Proof. destruct x; simpl; intros H; trivial; contradiction. Qed.

Lemma fadd_nan_l (x : num) : fadd NaN x = NaN.
Proof. reflexivity. Qed.

Lemma fadd_nan_r (x : num) : fadd x NaN = NaN.
Proof. destruct x; reflexivity. Qed.

(** X7: a NaN return makes the whole score NaN: the capped factor of a
    NaN return is NaN ([max(nan, -cap)] keeps its first argument) and
    every later [score += ...] keeps it. *)
Theorem nan_return_gives_nan_score (ind : Indicators) :
  is_nan (returns_1w ind) = true
  \/ is_nan (returns_1m ind) = true
  \/ is_nan (returns_3m ind) = true ->
  calculate_momentum_score (Some ind) = NaN.
Proof.
  intros H. apply feq_nan.
  pose proof (score_split ind) as S.
  assert (E : fadd (fadd (fadd (Fin 0) (short_term_points ind))
                         (medium_term_points ind))
                   (long_term_points ind) = NaN).
  { unfold short_term_points, medium_term_points, long_term_points.
    destruct H as [H | [H | H]].
    - destruct (returns_1w ind); try discriminate. reflexivity.
    - destruct (returns_1m ind); try discriminate. simpl.
      now rewrite fadd_nan_r.
    - destruct (returns_3m ind); try discriminate. simpl.
      now rewrite fadd_nan_r. }
  rewrite E in S. exact S.
Qed.

Lemma nan_return_gives_nan_score_witness :
  calculate_momentum_score
    (Some (set_returns scenario_record (Fin 10) NaN (Fin 2))) = NaN.
Proof.
  apply nan_return_gives_nan_score. right. left. reflexivity.
Defined.

Lemma set_returns_other_rules (ind : Indicators) (r1 r2 r3 : num) :
  rsi_rule_points (set_returns ind r1 r2 r3) = rsi_rule_points ind
  /\ volume_rule_points (set_returns ind r1 r2 r3) = volume_rule_points ind
  /\ sma_rule_points (set_returns ind r1 r2 r3) = sma_rule_points ind.
Proof. repeat split. Qed.

(** The points of a finite return, as a rational. *)
Lemma capped_points_monotone (ind1 ind2 : Indicators) (a1 a2 b1 b2 c1 c2 : Q) :
  returns_1w ind1 = Fin a1 -> returns_1w ind2 = Fin a2 -> a1 <= a2 ->
  returns_1m ind1 = Fin b1 -> returns_1m ind2 = Fin b2 -> b1 <= b2 ->
  returns_3m ind1 = Fin c1 -> returns_3m ind2 = Fin c2 -> c1 <= c2 ->
  exists p1 p2,
    fadd (fadd (fadd (Fin 0) (short_term_points ind1))
               (medium_term_points ind1)) (long_term_points ind1) = Fin p1
    /\ fadd (fadd (fadd (Fin 0) (short_term_points ind2))
                  (medium_term_points ind2)) (long_term_points ind2) = Fin p2
    /\ p1 <= p2.
Proof.
  intros A1 A2 A B1 B2 B C1 C2 C.
  assert (S : exists s1 s2, short_term_points ind1 = Fin s1
                            /\ short_term_points ind2 = Fin s2 /\ s1 <= s2).
  { unfold short_term_points, py_min, py_max, fgtb. rewrite A1, A2. simpl.
    qcases; eexists; eexists; (split; [reflexivity |]);
      (split; [reflexivity |]); qcases. }
  assert (M : exists s1 s2, medium_term_points ind1 = Fin s1
                            /\ medium_term_points ind2 = Fin s2 /\ s1 <= s2).
  { unfold medium_term_points, py_min, py_max, fgtb. rewrite B1, B2. simpl.
    qcases; eexists; eexists; (split; [reflexivity |]);
      (split; [reflexivity |]); qcases. }
  assert (L : exists s1 s2, long_term_points ind1 = Fin s1
                            /\ long_term_points ind2 = Fin s2 /\ s1 <= s2).
  { unfold long_term_points, py_min, py_max, fgtb. rewrite C1, C2. simpl.
    qcases; eexists; eexists; (split; [reflexivity |]);
      (split; [reflexivity |]); qcases. }
  destruct S as (s1 & s2 & -> & -> & S).
  destruct M as (m1 & m2 & -> & -> & M).
  destruct L as (l1 & l2 & -> & -> & L).
  simpl. eexists. eexists. split; [reflexivity |].
  split; [reflexivity |]. lra.
Qed.

(** X8: the score never decreases when the returns increase: with the
    other fields fixed and finite returns, raising returns_1w,
    returns_1m or returns_3m leaves the score equal or higher. *)
Theorem score_monotone_in_returns
    (ind : Indicators) (a1 a2 b1 b2 c1 c2 : Q) :
  a1 <= a2 -> b1 <= b2 -> c1 <= c2 ->
  fleb (calculate_momentum_score
          (Some (set_returns ind (Fin a1) (Fin b1) (Fin c1))))
       (calculate_momentum_score
          (Some (set_returns ind (Fin a2) (Fin b2) (Fin c2)))) = true.
Proof.
  intros A B C.
  set (i1 := set_returns ind (Fin a1) (Fin b1) (Fin c1)).
  set (i2 := set_returns ind (Fin a2) (Fin b2) (Fin c2)).
  destruct (capped_points_monotone i1 i2 a1 a2 b1 b2 c1 c2)
    as (p1 & p2 & E1 & E2 & P); trivial.
  pose proof (score_split i1) as S1. pose proof (score_split i2) as S2.
  rewrite E1 in S1. rewrite E2 in S2.
  destruct (set_returns_other_rules ind (Fin a1) (Fin b1) (Fin c1))
    as (R1 & V1 & M1).
  destruct (set_returns_other_rules ind (Fin a2) (Fin b2) (Fin c2))
    as (R2 & V2 & M2).
  fold i1 in R1, V1, M1. fold i2 in R2, V2, M2.
  rewrite R1, V1, M1 in S1. rewrite R2, V2, M2 in S2.
  destruct (calculate_momentum_score (Some i1)) as [s1 | | |];
    simpl in S1; try contradiction.
  destruct (calculate_momentum_score (Some i2)) as [s2 | | |];
    simpl in S2; try contradiction.
  simpl. apply negb_true_iff. qbool. rewrite S1, S2. lra.
Qed.

Lemma score_monotone_in_returns_witness :
  fleb (calculate_momentum_score
          (Some (set_returns scenario_record (Fin (-3)) (Fin 5) (Fin 2))))
       (calculate_momentum_score
          (Some (set_returns scenario_record (Fin 10) (Fin 5) (Fin 40))))
  = true.
Proof.
  apply (score_monotone_in_returns scenario_record); lra.
Defined.

(** ** Further properties of the indicator engine *)

Lemma ramp_valid (n : nat) : valid_series (ramp n).
Proof.
  unfold valid_series, ramp. apply Forall_map, Forall_forall.
  intros i Hi. apply in_seq in Hi. unfold valid_bar, bar. simpl.
  apply andb_true_iff. split; [| reflexivity].
  apply Qltb_lt. change 0 with (inject_Z 0). rewrite <- Zlt_Qlt. lia.
Qed.

Lemma ramp_length (n : nat) : length (ramp n) = n.
Proof. unfold ramp. now rewrite length_map, length_seq. Qed.

Lemma valid_series_ranges_witness :
  with_record (calculate_momentum_indicators fsqrt_floor
                 (Some (ramp 30)) "RAMP")
    (fun ind =>
       (rsi ind = NaN \/ exists q, rsi ind = Fin q /\ 0 <= q <= 100)
       /\ nonneg (volume_ratio ind)).
Proof.
  apply (valid_series_ranges fsqrt_floor (ramp 30) "RAMP").
  - apply ramp_valid.
  - rewrite ramp_length. lia.
Defined.

Lemma valid_closes_positive (data : TimeSeries) :
  valid_series data -> Forall positive (map Close data).
Proof.
  intros V. apply Forall_map. eapply Forall_impl; [| exact V].
  intros [c v]. unfold valid_bar. simpl.
  destruct c, v; try discriminate.
  intros H. apply andb_true_iff in H. destruct H as [H _]. qbool.
  eexists. split; [reflexivity | exact H].
Qed.

Lemma positive_nonneg (x : num) : positive x -> nonneg x.
Proof. intros (q & -> & H). exists q. split; [reflexivity | lra]. Qed.

Lemma positive_finite (x : num) : positive x -> finite x.
Proof. intros (q & -> & H). now exists q. Qed.

Lemma fold_fadd_positive (l : list num) (acc : num) :
  positive acc -> Forall positive l -> positive (fold_left fadd l acc).
Proof.
  revert acc. induction l as [| x t IH]; intros acc A F; simpl; trivial.
  inversion F as [| ? ? (q & -> & Hq) Ft]; subst.
  destruct A as (a & -> & Ha).
  apply IH; trivial. exists (a + q). split; [reflexivity | lra].
Qed.

Lemma fsum_positive (l : list num) :
  l <> [] -> Forall positive l -> positive (fsum l).
Proof.
  destruct l as [| x t]; [congruence |]. intros _ F.
  inversion F as [| ? ? (q & -> & Hq) Ft]; subst.
  unfold fsum. simpl. apply fold_fadd_positive; trivial.
  exists (0 + q). split; [reflexivity | lra].
Qed.

Lemma rolling_mean_positive (w : nat) (l : list num) :
  (0 < w <= length l)%nat -> Forall positive l ->
  positive (rolling_mean_last w l).
Proof.
  intros [W L] F. unfold rolling_mean_last.
  destruct (length l <? w)%nat eqn:E; [apply Nat.ltb_lt in E; lia |].
  destruct (fsum_positive (lastn w l)) as (s & -> & S).
  - intros C. apply (f_equal (@length num)) in C.
    rewrite lastn_length in C by lia. simpl in C. lia.
  - now apply lastn_Forall.
  - destruct (of_nat_pos w W) as (d & -> & D). simpl.
    destruct (Qeqb d 0) eqn:Ed; qbool; [lra |].
    eexists. split; [reflexivity |]. apply Qlt_shift_div_l; lra.
Qed.

Lemma close_from_end_positive (data : TimeSeries) (k : nat) :
  valid_series data -> (1 <= k <= length data)%nat ->
  positive (close_from_end data k).
Proof.
  intros V K. unfold close_from_end.
  pose proof (valid_closes_positive data V) as P.
  rewrite Forall_forall in P. apply P, nth_In.
  rewrite length_map. lia.
Qed.

Lemma pct_return_finite (current reference : num) :
  finite current -> positive reference ->
  finite (pct_return current reference).
Proof.
  intros (c & ->) (r & -> & R). unfold pct_return. simpl.
  destruct (Qeqb r 0) eqn:E; qbool; [lra |].
  eexists. reflexivity.
Qed.

(** The fields of a returned record, with the length guards of the
    source resolved (a record is returned for 20 bars or more only). *)
Lemma indicators_fields fsqrt (data : TimeSeries) tk ind :
  calculate_momentum_indicators fsqrt (Some data) tk = Some ind ->
  let close := map Close data in
  (20 <= length data)%nat
  /\ current_price ind = iloc close (-1)
  /\ returns_1w ind = pct_return (iloc close (-1)) (iloc close (-5))
  /\ returns_1m ind = pct_return (iloc close (-1)) (iloc close (-20))
  /\ returns_3m ind
     = pct_return (iloc close (-1))
         (if (60 <=? length data)%nat then iloc close (-60)
          else iloc close 0)
  /\ rsi ind = rsi_of_closes close
  /\ sma_20 ind = rolling_mean_last 20 close
  /\ sma_50 ind
     = (if (50 <=? length data)%nat then rolling_mean_last 50 close
        else rolling_mean_last 20 close)
  /\ volatility ind
     = fmul (rolling_std_last fsqrt 20 (pct_change close)) (Fin 100)
  /\ price_vs_sma20 ind = pct_return (current_price ind) (sma_20 ind)
  /\ price_vs_sma50 ind
     = (if fgtb (sma_50 ind) (Fin 0)
        then pct_return (current_price ind) (sma_50 ind)
        else Fin 0).
Proof.
  unfold calculate_momentum_indicators.
  destruct (length data <? 20)%nat eqn:L20; [discriminate |].
  apply Nat.ltb_ge in L20.
  assert (G5 : (5 <=? length data)%nat = true) by (apply Nat.leb_le; lia).
  assert (G20 : (20 <=? length data)%nat = true) by (apply Nat.leb_le; lia).
  rewrite G5, G20.
  destruct data as [| b0 rest]; [simpl in L20; lia |].
  intros H. injection H as <-.
  repeat split; trivial.
Qed.

Lemma indicators_short_inv fsqrt (data : TimeSeries) tk :
  calculate_momentum_indicators fsqrt (Some data) tk = None ->
  (length data < 20)%nat.
Proof.
  unfold calculate_momentum_indicators.
  destruct (length data <? 20)%nat eqn:E; [| discriminate].
  intros _. now apply Nat.ltb_lt.
Qed.

Lemma score_within_bounds_of_returns (ind : Indicators) :
  finite (returns_1w ind) -> finite (returns_1m ind) ->
  finite (returns_3m ind) ->
  score_within_bounds (calculate_momentum_score (Some ind)).
Proof.
  intros (a & A) (b & B) (c & C).
  destruct (score_bounds_of_returns ind) as (s & E & Bd);
    try (rewrite ?A, ?B, ?C; reflexivity).
  destruct (calculate_momentum_score (Some ind)) as [s' | | |];
    simpl in E; try contradiction.
  exists s'. split; [reflexivity |]. rewrite E. exact Bd.
Qed.

Lemma valid_record_facts fsqrt (data : TimeSeries) tk :
  valid_series data -> (20 <= length data)%nat ->
  with_record (calculate_momentum_indicators fsqrt (Some data) tk)
    (fun ind =>
       positive (current_price ind)
       /\ finite (returns_1w ind) /\ finite (returns_1m ind)
       /\ finite (returns_3m ind)
       /\ positive (sma_20 ind) /\ positive (sma_50 ind)
       /\ finite (price_vs_sma20 ind) /\ finite (price_vs_sma50 ind)
       /\ score_within_bounds (calculate_momentum_score (Some ind))).
Proof.
  intros V L.
  destruct (calculate_momentum_indicators fsqrt (Some data) tk)
    as [ind |] eqn:E; simpl.
  2: { apply indicators_short_inv in E. simpl in E. lia. }
  destruct (indicators_fields _ _ _ _ E)
    as (_ & Ec & E1 & E2 & E3 & _ & E20 & E50 & _ & Ev20 & Ev50).
  destruct (reference_closes data L) as (R1 & R5 & R20 & R60 & R0).
  assert (P1 : positive (current_price ind)).
  { rewrite Ec, R1. apply close_from_end_positive; trivial. lia. }
  assert (S20 : positive (sma_20 ind)).
  { rewrite E20. apply rolling_mean_positive.
    - rewrite length_map. lia.
    - now apply valid_closes_positive. }
  assert (S50 : positive (sma_50 ind)).
  { rewrite E50. destruct (50 <=? length data)%nat eqn:G.
    - apply Nat.leb_le in G. apply rolling_mean_positive.
      + rewrite length_map. lia.
      + now apply valid_closes_positive.
    - rewrite <- E20. exact S20. }
  assert (F1 : finite (returns_1w ind)).
  { rewrite E1, R1, R5. apply pct_return_finite.
    - apply positive_finite, close_from_end_positive; trivial. lia.
    - apply close_from_end_positive; trivial. lia. }
  assert (F2 : finite (returns_1m ind)).
  { rewrite E2, R1, R20. apply pct_return_finite.
    - apply positive_finite, close_from_end_positive; trivial. lia.
    - apply close_from_end_positive; trivial. lia. }
  assert (F3 : finite (returns_3m ind)).
  { rewrite E3, R1. apply pct_return_finite.
    - apply positive_finite, close_from_end_positive; trivial. lia.
    - destruct (60 <=? length data)%nat eqn:G.
      + apply Nat.leb_le in G. rewrite (R60 G).
        apply close_from_end_positive; trivial. lia.
      + rewrite R0. unfold earliest_close.
        pose proof (valid_closes_positive data V) as P.
        rewrite Forall_forall in P. apply P, nth_In.
        rewrite length_map. lia. }
  repeat split; trivial.
  - rewrite Ev20. apply pct_return_finite; trivial.
    now apply positive_finite.
  - rewrite Ev50. destruct S50 as (q & Eq & Q). rewrite Eq.
    unfold fgtb. simpl fltb.
    assert (T : Qltb 0 q = true) by now apply Qltb_lt.
    rewrite T. apply pct_return_finite.
    + now apply positive_finite.
    + exists q. auto.
  - now apply score_within_bounds_of_returns.
Qed.



(** ** Further properties of the orchestrator *)

Section Run.

Variable fsqrt : num -> num.
Variable fetch_stock_data : string -> option TimeSeries.

Lemma analyze_step_app (results : list Scored) (tk : string) :
  analyze_step fsqrt fetch_stock_data results tk
  = results ++ analyze_one fsqrt fetch_stock_data tk.
Proof.
  unfold analyze_one, analyze_step.
  destruct (fetch_stock_data tk) as [data |]; [| now rewrite app_nil_r].
  destruct (calculate_momentum_indicators fsqrt (Some data) tk);
    [reflexivity | now rewrite app_nil_r].
Qed.

Lemma analyze_fold_flat_map (tickers : list string) (results : list Scored) :
  fold_left (analyze_step fsqrt fetch_stock_data) tickers results
  = results ++ flat_map (analyze_one fsqrt fetch_stock_data) tickers.
Proof.
  revert results. induction tickers as [| tk t IH]; intros results; simpl.
  - now rewrite app_nil_r.
  - rewrite IH, analyze_step_app, <- app_assoc. reflexivity.
Qed.

(** What one ticker contributes: nothing, or the scored record of its
    fetched series. *)
Lemma analyze_one_spec (tk : string) :
  (long_enough fetch_stock_data tk = false
   /\ analyze_one fsqrt fetch_stock_data tk = [])
  \/ (long_enough fetch_stock_data tk = true
      /\ exists ind,
          calculate_momentum_indicators fsqrt (fetch_stock_data tk) tk
          = Some ind
          /\ ticker ind = tk
          /\ analyze_one fsqrt fetch_stock_data tk
             = [ {| indicators_of := ind;
                    momentum_score :=
                      calculate_momentum_score (Some ind) |} ]).
Proof.
  unfold analyze_one, analyze_step, long_enough.
  destruct (fetch_stock_data tk) as [data |]; [| now left].
  destruct (calculate_momentum_indicators fsqrt (Some data) tk)
    as [ind |] eqn:E.
  - right. destruct (indicators_some_inv _ _ _ _ E) as (d & Ed & L & T).
    injection Ed as <-. split.
    + apply negb_true_iff, Nat.ltb_ge, L.
    + exists ind. auto.
  - left. apply indicators_short_inv in E. split; trivial.
    apply negb_false_iff, Nat.ltb_lt, E.
Qed.

Lemma analyze_stocks_tickers (tickers : list string) :
  map (fun r => ticker (indicators_of r))
      (flat_map (analyze_one fsqrt fetch_stock_data) tickers)
  = filter (long_enough fetch_stock_data) tickers.
Proof.
  induction tickers as [| tk t IH]; simpl; trivial.
  rewrite map_app, IH.
  destruct (analyze_one_spec tk) as [[L E] | [L (ind & _ & T & E)]];
    rewrite L, E; simpl; [reflexivity | now rewrite T].
Qed.

End Run.

(** X11: a run scores exactly the tickers of the universe for which the
    data feed has at least 20 bars, once per occurrence and in the
    order of the universe; every record of the run holds the indicators
    computed from the series fetched for its ticker, and its
    momentum_score is the score of these indicators. *)
Theorem run_scores_long_series
    (fsqrt : num -> num) (fetch_stock_data : string -> option TimeSeries)
    (sp500_tickers : list string) :
  map (fun r => ticker (indicators_of r))
      (analyze_stocks fsqrt fetch_stock_data sp500_tickers)
  = filter (long_enough fetch_stock_data) sp500_tickers
  /\ Forall
      (fun r =>
         calculate_momentum_indicators fsqrt
           (fetch_stock_data (ticker (indicators_of r)))
           (ticker (indicators_of r))
         = Some (indicators_of r)
         /\ momentum_score r
            = calculate_momentum_score (Some (indicators_of r)))
      (analyze_stocks fsqrt fetch_stock_data sp500_tickers).
Proof.
  unfold analyze_stocks. rewrite analyze_fold_flat_map. simpl.
  split; [apply analyze_stocks_tickers |].
  apply Forall_forall. intros r Hr.
  apply in_flat_map in Hr. destruct Hr as (tk & _ & Hr).
  destruct (analyze_one_spec fsqrt fetch_stock_data tk)
    as [[_ E] | [_ (ind & C & T & E)]]; rewrite E in Hr.
  - destruct Hr.
  - destruct Hr as [<- | []]. simpl. rewrite T. auto.
Qed.

(** X12: when every series the data feed returns is valid (finite
    positive closes, finite non-negative volumes), every
    momentum_score of the run is a number of [-60, 65]. *)
Theorem run_scores_within_bounds
    (fsqrt : num -> num) (fetch_stock_data : string -> option TimeSeries)
    (sp500_tickers : list string) :
  (forall tk data, fetch_stock_data tk = Some data -> valid_series data) ->
  Forall (fun r => score_within_bounds (momentum_score r))
         (analyze_stocks fsqrt fetch_stock_data sp500_tickers).
Proof.
  intros V. unfold analyze_stocks. rewrite analyze_fold_flat_map. simpl.
  apply Forall_forall. intros r Hr.
  apply in_flat_map in Hr. destruct Hr as (tk & _ & Hr).
  destruct (analyze_one_spec fsqrt fetch_stock_data tk)
    as [[_ E] | [_ (ind & C & T & E)]]; rewrite E in Hr.
  - destruct Hr.
  - destruct Hr as [<- | []]. simpl.
    destruct (fetch_stock_data tk) as [data |] eqn:F;
      [| discriminate C].
    pose proof (valid_record_facts fsqrt data tk (V tk data F)) as R.
    destruct (indicators_some_inv _ _ _ _ C) as (d & Ed & L & _).
    injection Ed as <-. specialize (R L). rewrite C in R. simpl in R.
    tauto.
Qed.

Lemma sample_feed_valid (tk : string) (data : TimeSeries) :
  sample_feed tk = Some data -> valid_series data.
Proof.
  unfold sample_feed.
  destruct (String.eqb tk "AAA"); [intros H; injection H as <- |].
  - apply ramp_valid.
  - destruct (String.eqb tk "BBB"); [| discriminate].
    intros H. injection H as <-. apply ramp_valid.
Qed.

Lemma run_scores_within_bounds_witness :
  Forall (fun r => score_within_bounds (momentum_score r))
         (analyze_stocks fsqrt_floor sample_feed sample_universe).
Proof.
  apply (run_scores_within_bounds fsqrt_floor sample_feed sample_universe).
  exact sample_feed_valid.
Defined.

(** ** Volatility of a 20-bar series, extremes of the RSI *)

Lemma pct_change_from_length (prev : num) (l : list num) :
  length (pct_change_from prev l) = length l.
Proof.
  revert prev. induction l as [| x t IH]; intros prev; simpl; auto.
Qed.

Lemma skipn_none {A} (l : list A) (n : nat) :
  n = length l -> lastn n l = l.
Proof. intros ->. unfold lastn. now rewrite Nat.sub_diag. Qed.

(** X13: a series of exactly 20 bars has a NaN volatility (the 20-bar
    window of the percentage changes holds the undefined first change),
    so its record fails the volatility test of the filter and is never
    recommended, whatever its score, the other records and [top_n]. *)
Theorem twenty_bars_never_recommended fsqrt (data : TimeSeries) tk :
  length data = 20%nat ->
  with_record (calculate_momentum_indicators fsqrt (Some data) tk)
    (fun ind =>
       volatility ind = NaN
       /\ forall score results top_n,
           ~ In {| indicators_of := ind; momentum_score := score |}
                (fst (get_recommendations results top_n))
           /\ ~ In {| indicators_of := ind; momentum_score := score |}
                  (snd (get_recommendations results top_n))).
Proof.
  intros L.
  destruct (calculate_momentum_indicators fsqrt (Some data) tk)
    as [ind |] eqn:E; simpl.
  2: { apply indicators_short_inv in E. lia. }
  destruct (indicators_fields _ _ _ _ E)
    as (_ & _ & _ & _ & _ & _ & _ & _ & Ev & _).
  assert (V : volatility ind = NaN).
  { rewrite Ev. unfold rolling_std_last.
    destruct data as [| b0 rest]; [discriminate L |].
    simpl map. unfold pct_change.
    rewrite skipn_none
      by (simpl; rewrite pct_change_from_length, length_map;
          simpl in L; lia).
    simpl existsb. rewrite orb_true_r. reflexivity. }
  split; [exact V |].
  intros score results top_n.
  assert (N : ~ In {| indicators_of := ind; momentum_score := score |}
                  (filtered_results results)).
  { unfold filtered_results. rewrite filter_In. intros [_ P].
    unfold passes_filter in P. simpl in P. rewrite V in P. discriminate. }
  split; intros H; apply N, (recommended_is_filtered results top_n); auto.
Qed.

Lemma twenty_bars_never_recommended_witness :
  with_record (calculate_momentum_indicators fsqrt_floor
                 (Some (ramp 20)) "RAMP")
    (fun ind => volatility ind = NaN).
Proof.
  pose proof (twenty_bars_never_recommended fsqrt_floor (ramp 20) "RAMP"
                (ramp_length 20)) as H.
  destruct (calculate_momentum_indicators fsqrt_floor
              (Some (ramp 20)) "RAMP") as [ind |]; simpl in *; tauto.
Defined.

Lemma lastn_map {A B} (f : A -> B) (n : nat) (l : list A) :
  lastn n (map f l) = map f (lastn n l).
Proof. unfold lastn. now rewrite length_map, skipn_map. Qed.

Lemma fold_fadd_zeroish (l : list num) (acc : num) :
  zeroish acc -> Forall zeroish l -> zeroish (fold_left fadd l acc).
Proof.
  revert acc. induction l as [| x t IH]; intros acc A F; simpl; trivial.
  inversion F as [| ? ? (q & -> & Hq) Ft]; subst.
  destruct A as (a & -> & Ha).
  apply IH; trivial. exists (a + q). split; [reflexivity |].
  rewrite Ha, Hq. reflexivity.
Qed.

Lemma fsum_zeroish (l : list num) : Forall zeroish l -> zeroish (fsum l).
Proof.
  apply fold_fadd_zeroish. exists 0. split; reflexivity.
Qed.

(** The 14-bar mean of a list of zeros is zero, of positive numbers
    positive. *)
Lemma mean_14_zeroish (l : list num) :
  Forall zeroish l -> zeroish (fdiv (fsum l) (of_nat 14)).
Proof.
  intros F. destruct (fsum_zeroish l F) as (s & -> & S).
  destruct (of_nat_pos 14) as (d & -> & D); [lia |]. simpl.
  destruct (Qeqb d 0) eqn:E; qbool; [lra |].
  eexists. split; [reflexivity |]. rewrite S.
  unfold Qdiv. apply Qmult_0_l.
Qed.

Lemma mean_14_positive (l : list num) :
  l <> [] -> Forall positive l -> positive (fdiv (fsum l) (of_nat 14)).
Proof.
  intros N F. destruct (fsum_positive l N F) as (s & -> & S).
  destruct (of_nat_pos 14) as (d & -> & D); [lia |]. simpl.
  destruct (Qeqb d 0) eqn:E; qbool; [lra |].
  eexists. split; [reflexivity |]. apply Qlt_shift_div_l; lra.
Qed.

(** The two means of the RSI in terms of the last 14 changes. *)
Lemma rsi_of_closes_window (close : list num) :
  (14 <= length close)%nat ->
  rsi_of_closes close
  = let window := lastn 14 (diff close) in
    let gain :=
      fdiv (fsum (map (fun d => if fgtb d (Fin 0) then d else Fin 0) window))
           (of_nat 14) in
    let loss :=
      fdiv (fsum (map (fun d => fneg (if fltb d (Fin 0) then d else Fin 0))
                      window))
           (of_nat 14) in
    fsub (Fin 100) (fdiv (Fin 100) (fadd (Fin 1) (fdiv gain loss))).
Proof.
  intros L. unfold rsi_of_closes, rolling_mean_last, where_or_zero.
  rewrite map_map, !length_map, diff_length.
  assert (E : (length close <? 14)%nat = false) by (apply Nat.ltb_ge; lia).
  rewrite E, !lastn_map. reflexivity.
Qed.

Lemma rsi_all_zero (g l : Q) :
  g == 0 -> l == 0 ->
  fsub (Fin 100) (fdiv (Fin 100) (fadd (Fin 1) (fdiv (Fin g) (Fin l))))
  = NaN.
Proof.
  intros G L. simpl.
  assert (Eg : Qeqb g 0 = true) by now apply Qeqb_eq.
  assert (El : Qeqb l 0 = true) by now apply Qeqb_eq.
  now rewrite El, Eg.
Qed.

Lemma rsi_no_loss (g l : Q) :
  0 < g -> l == 0 ->
  feq (fsub (Fin 100)
         (fdiv (Fin 100) (fadd (Fin 1) (fdiv (Fin g) (Fin l)))))
      (Fin 100).
Proof.
  intros G L. simpl.
  assert (Eg : Qeqb g 0 = false) by (apply Qeqb_neq; lra).
  assert (El : Qeqb l 0 = true) by now apply Qeqb_eq.
  assert (Sg : Qltb 0 g = true) by now apply Qltb_lt.
  rewrite El, Eg, Sg. simpl. reflexivity.
Qed.

Lemma rsi_no_gain (g l : Q) :
  g == 0 -> 0 < l ->
  feq (fsub (Fin 100)
         (fdiv (Fin 100) (fadd (Fin 1) (fdiv (Fin g) (Fin l)))))
      (Fin 0).
Proof.
  intros G L. simpl.
  assert (El : Qeqb l 0 = false) by (apply Qeqb_neq; lra).
  rewrite El. simpl.
  assert (Z : 1 + g / l == 1).
  { rewrite G. unfold Qdiv. rewrite Qmult_0_l. reflexivity. }
  assert (E1 : Qeqb (1 + g / l) 0 = false).
  { apply Qeqb_neq. rewrite Z. discriminate. }
  rewrite E1. simpl. rewrite Z. reflexivity.
Qed.

(** X14: the RSI at its extremes, for a series of at least 20 bars.
    When the close did not change over the last 14 changes the rsi field
    is NaN; when every one of them is a rise the rsi is 100 (the mean
    loss is 0 and RS is infinite); when every one is a fall it is 0. *)
Theorem rsi_extremes fsqrt (data : TimeSeries) tk :
  (20 <= length data)%nat ->
  with_record (calculate_momentum_indicators fsqrt (Some data) tk)
    (fun ind =>
       (Forall zeroish (recent_changes data) -> rsi ind = NaN)
       /\ (Forall positive (recent_changes data) ->
           feq (rsi ind) (Fin 100))
       /\ (Forall negative (recent_changes data) ->
           feq (rsi ind) (Fin 0))).
Proof.
  intros L.
  destruct (calculate_momentum_indicators fsqrt (Some data) tk)
    as [ind |] eqn:E; simpl.
  2: { apply indicators_short_inv in E. lia. }
  destruct (indicators_fields _ _ _ _ E) as (_ & _ & _ & _ & _ & -> & _).
  rewrite rsi_of_closes_window by (rewrite length_map; lia).
  cbv zeta. fold (recent_changes data).
  assert (N : recent_changes data <> []).
  { intros C. apply (f_equal (@length num)) in C.
    unfold recent_changes in C.
    rewrite lastn_length in C; [discriminate |].
    rewrite diff_length, length_map. lia. }
  set (w := recent_changes data) in *.
  assert (Nm : forall f : num -> num, map f w <> []).
  { intros f C. apply map_eq_nil in C. contradiction. }
  split; [| split]; intros F.
  - destruct (mean_14_zeroish
                (map (fun d => if fgtb d (Fin 0) then d else Fin 0) w))
      as (g & -> & G).
    { apply Forall_map. eapply Forall_impl; [| exact F].
      intros d (q & -> & Q). unfold fgtb. simpl.
      destruct (Qltb 0 q) eqn:T; qbool; [lra |].
      exists 0. split; reflexivity. }
    destruct (mean_14_zeroish
                (map (fun d => fneg (if fltb d (Fin 0) then d else Fin 0)) w))
      as (l & -> & Lo).
    { apply Forall_map. eapply Forall_impl; [| exact F].
      intros d (q & -> & Q). simpl.
      destruct (Qltb q 0) eqn:T; qbool; [lra |].
      exists (- 0). split; reflexivity. }
    now apply rsi_all_zero.
  - destruct (mean_14_positive
                (map (fun d => if fgtb d (Fin 0) then d else Fin 0) w))
      as (g & -> & G); [apply Nm | |].
    { apply Forall_map. eapply Forall_impl; [| exact F].
      intros d (q & -> & Q). unfold fgtb. simpl.
      destruct (Qltb 0 q) eqn:T; qbool; [| lra].
      exists q. split; [reflexivity | lra]. }
    destruct (mean_14_zeroish
                (map (fun d => fneg (if fltb d (Fin 0) then d else Fin 0)) w))
      as (l & -> & Lo).
    { apply Forall_map. eapply Forall_impl; [| exact F].
      intros d (q & -> & Q). simpl.
      destruct (Qltb q 0) eqn:T; qbool; [lra |].
      exists (- 0). split; reflexivity. }
    now apply rsi_no_loss.
  - destruct (mean_14_zeroish
                (map (fun d => if fgtb d (Fin 0) then d else Fin 0) w))
      as (g & -> & G).
    { apply Forall_map. eapply Forall_impl; [| exact F].
      intros d (q & -> & Q). unfold fgtb. simpl.
      destruct (Qltb 0 q) eqn:T; qbool; [lra |].
      exists 0. split; reflexivity. }
    destruct (mean_14_positive
                (map (fun d => fneg (if fltb d (Fin 0) then d else Fin 0)) w))
      as (l & -> & Lo); [apply Nm | |].
    { apply Forall_map. eapply Forall_impl; [| exact F].
      intros d (q & -> & Q). simpl.
      destruct (Qltb q 0) eqn:T; qbool; [| lra].
      exists (- q). split; [reflexivity | lra]. }
    now apply rsi_no_gain.
Qed.

(** Decides [Forall P] on an explicit list of rationals, for [P] one of
    [zeroish], [positive], [negative]. *)
Ltac forall_window :=
  unfold recent_changes;
  match goal with
  | |- Forall _ ?l => let l' := eval vm_compute in l in change l with l'
  end;
  repeat (apply Forall_cons;
          [eexists; split; [reflexivity | reflexivity] |]);
  apply Forall_nil.

Lemma rsi_extremes_witness :
  with_record (calculate_momentum_indicators fsqrt_floor
                 (Some (flat 20)) "FLAT")
    (fun ind => rsi ind = NaN)
  /\ with_record (calculate_momentum_indicators fsqrt_floor
                    (Some (ramp 20)) "RAMP")
       (fun ind => feq (rsi ind) (Fin 100))
  /\ with_record (calculate_momentum_indicators fsqrt_floor
                    (Some (slide 20)) "SLIDE")
       (fun ind => feq (rsi ind) (Fin 0)).
Proof.
  split; [| split].
  - pose proof (rsi_extremes fsqrt_floor (flat 20) "FLAT") as H.
    specialize (H ltac:(vm_compute; lia)).
    destruct (calculate_momentum_indicators fsqrt_floor
                (Some (flat 20)) "FLAT") as [ind |]; simpl in *; trivial.
    apply H. forall_window.
  - pose proof (rsi_extremes fsqrt_floor (ramp 20) "RAMP") as H.
    specialize (H ltac:(vm_compute; lia)).
    destruct (calculate_momentum_indicators fsqrt_floor
                (Some (ramp 20)) "RAMP") as [ind |]; simpl in *; trivial.
    apply H. forall_window.
  - pose proof (rsi_extremes fsqrt_floor (slide 20) "SLIDE") as H.
    specialize (H ltac:(vm_compute; lia)).
    destruct (calculate_momentum_indicators fsqrt_floor
                (Some (slide 20)) "SLIDE") as [ind |]; simpl in *; trivial.
    apply H. forall_window.
Defined.

(** ** The built-in universe *)

Lemma nodupb_sound (l : list string) : nodupb l = true -> NoDup l.
Proof.
  induction l as [| x t IH]; simpl; intros H; constructor.
  - apply andb_true_iff in H. destruct H as [H _].
    apply negb_true_iff in H. intros I.
    assert (E : existsb (String.eqb x) t = true).
    { apply existsb_exists. exists x. split; trivial. apply String.eqb_refl. }
    congruence.
  - apply andb_true_iff in H. tauto.
Qed.

(** The tickers of a run, for any universe. *)
Lemma run_tickers
    (fsqrt : num -> num) (fetch_stock_data : string -> option TimeSeries)
    (tickers : list string) :
  map (fun r => ticker (indicators_of r))
      (analyze_stocks fsqrt fetch_stock_data tickers)
  = filter (long_enough fetch_stock_data) tickers.
Proof.
  unfold analyze_stocks. rewrite analyze_fold_flat_map.
  rewrite app_nil_l. apply analyze_stocks_tickers.
Qed.

Lemma universe_length : length _get_sp500_tickers = 100%nat.
Proof. vm_compute. reflexivity. Qed.

Lemma universe_nodup : NoDup _get_sp500_tickers.
Proof. apply nodupb_sound. vm_compute. reflexivity. Qed.

(** X15: the built-in universe has 100 pairwise distinct tickers, so a
    run over it produces at most 100 scored records and no two of them
    carry the same ticker, whatever the data feed returns. *)
Theorem builtin_universe_run
    (fsqrt : num -> num) (fetch_stock_data : string -> option TimeSeries) :
  length _get_sp500_tickers = 100%nat
  /\ NoDup _get_sp500_tickers
  /\ (length (analyze_stocks fsqrt fetch_stock_data _get_sp500_tickers)
      <= 100)%nat
  /\ NoDup (map (fun r => ticker (indicators_of r))
                (analyze_stocks fsqrt fetch_stock_data _get_sp500_tickers)).
Proof.
  pose proof (run_tickers fsqrt fetch_stock_data _get_sp500_tickers) as T.
  split; [exact universe_length |].
  split; [exact universe_nodup |].
  split.
  - rewrite <- (length_map (fun r => ticker (indicators_of r))), T.
    rewrite <- universe_length. apply filter_length_le.
  - rewrite T. apply NoDup_filter, universe_nodup.
Qed.
